(** * Conversational proposal builder: a shallow embedding of
      [Conversational_proposal.py] and the properties of its specification.

    The program is a Streamlit script.  Every user interaction re-runs the
    script from the top against the persistent [st.session_state]; the
    widgets return what the user entered and the two Bedrock calls return
    whatever the hosted model answers.  The embedding therefore has

    - Python values (JSON-shaped) as an inductive type, dictionaries as
      finite maps with string keys;
    - the persistent session state as a record that is threaded through a
      state-and-exception monad (a raised exception does not roll the
      session back);
    - one script run as a monadic computation that reads the widget values
      and the behaviour of the model boundary from an environment and
      records what it renders and which calls it makes in an event log.

    Characters are code points below 256, so a Python [str] is a Rocq
    [string]. *)

From Stdlib Require Import ZArith Ascii String List Bool Lia.
From stdpp Require Import base option list gmap strings fin_maps pretty.

#[local] Set Warnings "-register-all".
#[local] Open Scope string_scope.
#[local] Open Scope list_scope.

(* ===================================================================== *)
(** * Python values and exceptions *)
(* ===================================================================== *)

(** What [json.loads] can produce.  A float keeps its source text and the
    one bit the script observes, whether it is non-zero (its truth value). *)
Inductive pyval : Type :=
  | PNone
  | PBool (b : bool)
  | PInt (n : Z)
  | PFloat (lexeme : string) (nonzero : bool)
  | PStr (s : string)
  | PList (l : list pyval)
  | PDict (d : gmap string pyval).

(** Exception classes; all of them derive from [Exception]. *)
Inductive exn_class : Type :=
  | JSONDecodeError
  | KeyError
  | IndexError
  | TypeError
  | AttributeError
  | OtherError (name : string).

(** An exception instance; [exn_msg] is what [str(e)] returns. *)
Record exn : Type := Exn { exn_cls : exn_class; exn_msg : string }.

(** Result of an expression that may raise. *)
Inductive res (A : Type) : Type :=
  | Ok (a : A)
  | Raise (e : exn).
Arguments Ok {A} a.
Arguments Raise {A} e.

#[global] Instance res_ret : MRet res := fun A a => Ok a.

#[global] Instance res_bind : MBind res := fun A B k r =>
  match r with
  | Ok a => k a
  | Raise e => Raise e
  end.

(** Python's truth value of an object, as used by [if x:] and [not x]. *)
Definition truthy (v : pyval) : bool :=
  match v with
  | PNone => false
  | PBool b => b
  | PInt n => negb (n =? 0)%Z
  | PFloat _ nz => nz
  | PStr s => negb (String.eqb s "")
  | PList l => match l with [] => false | _ => true end
  | PDict d => match map_to_list d with [] => false | _ => true end
  end.

(** The name Python prints for the type of a value in its error messages. *)
Definition type_name (v : pyval) : string :=
  match v with
  | PNone => "NoneType"
  | PBool _ => "bool"
  | PInt _ => "int"
  | PFloat _ _ => "float"
  | PStr _ => "str"
  | PList _ => "list"
  | PDict _ => "dict"
  end.

Definition no_attribute (v : pyval) (attr : string) : exn :=
  Exn AttributeError
      ("'" +:+ type_name v +:+ "' object has no attribute '" +:+ attr +:+ "'").

Definition not_subscriptable (v : pyval) : exn :=
  Exn TypeError ("'" +:+ type_name v +:+ "' object is not subscriptable").

(** [obj.get(key, default)]: only dictionaries have the method. *)
Definition py_get (obj : pyval) (key : string) (dflt : pyval) : res pyval :=
  match obj with
  | PDict d => Ok (default dflt (d !! key))
  | _ => Raise (no_attribute obj "get")
  end.

(** [obj[0]]. *)
Definition py_item0 (obj : pyval) : res pyval :=
  match obj with
  | PList (x :: _) => Ok x
  | PList [] => Raise (Exn IndexError "list index out of range")
  | PStr (String c _) => Ok (PStr (String c ""))
  | PStr "" => Raise (Exn IndexError "string index out of range")
  | PDict _ => Raise (Exn KeyError "0")
  | _ => Raise (not_subscriptable obj)
  end.

(** [obj[key]] for a string [key]. *)
Definition py_item (obj : pyval) (key : string) : res pyval :=
  match obj with
  | PDict d =>
      match d !! key with
      | Some v => Ok v
      | None => Raise (Exn KeyError ("'" +:+ key +:+ "'"))
      end
  | PList _ =>
      Raise (Exn TypeError "list indices must be integers or slices, not str")
  | PStr _ => Raise (Exn TypeError "string indices must be integers, not 'str'")
  | _ => Raise (not_subscriptable obj)
  end.

(** Where the script would build a dictionary with a key that is not a
    string, or depend on the insertion order of a dictionary, and where a
    text needs a character or a number outside the value type, the
    embedding stops with this marker instead. *)
Definition outside_data_model : exn :=
  Exn (OtherError "OutsideDataModel") "value outside the data model".

Definition not_iterable (obj : pyval) : exn :=
  Exn TypeError ("'" +:+ type_name obj +:+ "' object is not iterable").

(* ===================================================================== *)
(** * String operations of [str] *)
(* ===================================================================== *)

(** [c.lower()] on one character (code points below 256). *)
Definition lower_char (c : ascii) : ascii :=
  let n := nat_of_ascii c in
  if (((65 <=? n) && (n <=? 90)) ||
      ((192 <=? n) && (n <=? 222) && negb (n =? 215)))%nat
  then ascii_of_nat (n + 32)
  else c.

(** [s.lower()]. *)
Fixpoint lower (s : string) : string :=
  match s with
  | "" => ""
  | String c s' => String (lower_char c) (lower s')
  end.

(** [sub in s] for strings: [sub] occurs in [s] at some position. *)
Fixpoint py_in (sub s : string) : bool :=
  String.prefix sub s ||
  match s with
  | "" => false
  | String _ s' => py_in sub s'
  end.

(** [s.find(sub)]: the least index where [sub] occurs, or [-1]. *)
Fixpoint find_index (sub s : string) : option nat :=
  if String.prefix sub s then Some 0%nat
  else match s with
       | "" => None
       | String _ s' => S <$> find_index sub s'
       end.

Definition py_find (s sub : string) : Z :=
  match find_index sub s with
  | Some i => Z.of_nat i
  | None => (-1)%Z
  end.

Fixpoint string_drop (n : nat) (s : string) : string :=
  match n, s with
  | O, _ => s
  | S n', String _ s' => string_drop n' s'
  | S _, "" => ""
  end.

(** [s[i:]], with Python's treatment of a negative start. *)
Definition py_slice_from (s : string) (i : Z) : string :=
  let len := Z.of_nat (String.length s) in
  let start := if (i <? 0)%Z then Z.max 0 (i + len) else i in
  string_drop (Z.to_nat start) s.

(** [c.isspace()] (code points below 256). *)
Definition is_space (c : ascii) : bool :=
  let n := nat_of_ascii c in
  (((9 <=? n) && (n <=? 13)) || ((28 <=? n) && (n <=? 32)) ||
   (n =? 133) || (n =? 160))%nat.

(** [not s.strip()]: [s] is empty or consists of white space only. *)
Fixpoint all_space (s : string) : bool :=
  match s with
  | "" => true
  | String c s' => is_space c && all_space s'
  end.

(** [sub] is a substring of [s]. *)
Definition occurs_in (sub s : string) : Prop :=
  ∃ pre post, s = pre +:+ sub +:+ post.

(* ===================================================================== *)
(** * The registry and the relevance gate *)
(* ===================================================================== *)

(** List of required lead details: field name and the question asking for it. *)
Definition REQUIRED_LEAD_DETAILS : gmap string string :=
  list_to_map
    [ ("Annual Revenue",
       "What is the approximate annual revenue of your business?");
      ("Industry", "Which industry does your business operate in?");
      ("Entity Type",
       "What is the entity type of your business (e.g., LLC, Corporation)?");
      ("Publicly Traded",
       "Is your business publicly traded or privately held?");
      ("Primary Accounting Software",
       "What is the primary accounting software your business uses (e.g., QuickBooks, Xero)?");
      ("Months to Clean-Up",
       "How many months of bookkeeping clean-up are needed?");
      ("Year to Be Filed",
       "Which financial year do you want to file taxes for?");
      ("States to File Taxes", "Which states do you need to file taxes in?") ].

(** Tax-related keywords. *)
Definition TAX_KEYWORDS : list string :=
  ["tax"; "filing"; "tax preparation"; "tax filing"].

(** Check if the user input relates to tax services. *)
Definition is_tax_related (user_input : string) : bool :=
  existsb (fun keyword => py_in keyword (lower user_input)) TAX_KEYWORDS.

(* ===================================================================== *)
(** * Session state *)
(* ===================================================================== *)

(** One entry of [chat_history]: [{"sender": ..., "message": ...}]. *)
Record chat : Type := Chat { sender : string; message : string }.

(** The keys of [st.session_state].  It survives from one run of the
    script to the next. *)
Record session_state : Type := Session {
  chat_history : list chat;
  asked_questions : gset string;
  collected_details : gmap string pyval;
  response : pyval;
  final_response : pyval;
  missing_keys : pyval;
  show_final_response : bool
}.

(** The state the initialisation blocks create on the first run. *)
Definition initial_session : session_state :=
  {| chat_history := [];
     asked_questions := ∅;
     collected_details := ∅;
     response := PNone;
     final_response := PNone;
     missing_keys := PList [];
     show_final_response := false |}.

Definition set_chat_history (h : list chat) (s : session_state) :=
  {| chat_history := h;
     asked_questions := asked_questions s;
     collected_details := collected_details s;
     response := response s;
     final_response := final_response s;
     missing_keys := missing_keys s;
     show_final_response := show_final_response s |}.

Definition set_asked_questions (a : gset string) (s : session_state) :=
  {| chat_history := chat_history s;
     asked_questions := a;
     collected_details := collected_details s;
     response := response s;
     final_response := final_response s;
     missing_keys := missing_keys s;
     show_final_response := show_final_response s |}.

Definition set_collected_details (c : gmap string pyval) (s : session_state) :=
  {| chat_history := chat_history s;
     asked_questions := asked_questions s;
     collected_details := c;
     response := response s;
     final_response := final_response s;
     missing_keys := missing_keys s;
     show_final_response := show_final_response s |}.

Definition set_response (r : pyval) (s : session_state) :=
  {| chat_history := chat_history s;
     asked_questions := asked_questions s;
     collected_details := collected_details s;
     response := r;
     final_response := final_response s;
     missing_keys := missing_keys s;
     show_final_response := show_final_response s |}.

Definition set_final_response (r : pyval) (s : session_state) :=
  {| chat_history := chat_history s;
     asked_questions := asked_questions s;
     collected_details := collected_details s;
     response := response s;
     final_response := r;
     missing_keys := missing_keys s;
     show_final_response := show_final_response s |}.

Definition set_missing_keys (m : pyval) (s : session_state) :=
  {| chat_history := chat_history s;
     asked_questions := asked_questions s;
     collected_details := collected_details s;
     response := response s;
     final_response := final_response s;
     missing_keys := m;
     show_final_response := show_final_response s |}.

Definition set_show_final_response (b : bool) (s : session_state) :=
  {| chat_history := chat_history s;
     asked_questions := asked_questions s;
     collected_details := collected_details s;
     response := response s;
     final_response := final_response s;
     missing_keys := missing_keys s;
     show_final_response := b |}.

(** Log chat messages while avoiding duplicates. *)
Definition log_chat (sender message : string) (s : session_state)
  : session_state :=
  if bool_decide (sender = "Bot") && bool_decide (message ∈ asked_questions s)
  then s (* Skip if the bot already asked this question *)
  else
    let s1 := set_chat_history (chat_history s ++ [Chat sender message]) s in
    if bool_decide (sender = "Bot")
    then set_asked_questions (asked_questions s1 ∪ {[message]}) s1
    else s1.

(** The message texts of the transcript entries whose sender is the Bot. *)
Definition bot_messages (h : list chat) : list string :=
  message <$> filter (fun c => sender c = "Bot") h.

(** A sequence of [log_chat] calls, each a sender and a message. *)
Definition log_all (calls : list (string * string)) (s : session_state)
  : session_state :=
  foldl (fun s call => log_chat call.1 call.2 s) s calls.

(** The invariant that ties [asked_questions] to the transcript. *)
Definition transcript_ok (s : session_state) : Prop :=
  NoDup (bot_messages (chat_history s)) ∧
  ∀ m, m ∈ asked_questions s ↔ m ∈ bot_messages (chat_history s).

(** [{**obj}]: unpacking into a dictionary display needs a mapping. *)
Definition py_unpack_mapping (obj : pyval) : res (gmap string pyval) :=
  match obj with
  | PDict d => Ok d
  | _ => Raise (Exn TypeError ("'" +:+ type_name obj +:+ "' object is not a mapping"))
  end.

(** [model_response.get("provided_details", {})] on a dictionary. *)
Definition provided_details_of (model_response : gmap string pyval) : pyval :=
  default (PDict ∅) (model_response !! "provided_details").

(** Combine the model response with all collected details.  The second
    unpacking, of [collected_details], is commented out in the source. *)
Definition combine_responses (model_response : pyval)
    (collected_details : gmap string pyval) : res pyval :=
  match model_response with
  | PDict combined_response =>
      (* Start with a copy of the original model response *)
      provided ← py_get model_response "provided_details" (PDict ∅);
      combined_details ← py_unpack_mapping provided;
      (* Update the combined response *)
      Ok (PDict (<["provided_details" := PDict combined_details]> combined_response))
  | PList _ => Raise (no_attribute model_response "get")
  | _ => Raise (no_attribute model_response "copy")
  end.

(* ===================================================================== *)
(** * The two calls to the hosted model *)
(* ===================================================================== *)

(** The interface of Python's [json] module that the script uses.
    [json_loads] raises [JSONDecodeError] on malformed text. *)
Class Json : Type := {
  json_loads : string → res pyval;
  json_dumps : pyval → string
}.

(** CPython's decoder turns a text that starts with an opening brace into
    a dictionary, or fails. *)
Definition decodes_objects `{Json} : Prop :=
  ∀ text value, json_loads (String "{" text) = Ok value → ∃ d, value = PDict d.

(** What the model-invocation boundary does on one call: either
    [invoke_model], or reading and decoding the body, raises, or the call
    yields the decoded body text. *)
Inductive boundary : Type :=
  | BedrockRaises (e : exn)
  | BedrockBody (response_body : string).

Definition error_dict (msg : string) : pyval :=
  PDict {[ "error" := PStr msg ]}.

Section calls.
Context `{Json}.

(** The [try] block of [analyze_details_with_bedrock]. *)
Definition analyze_details_try (b : boundary) : res pyval :=
  match b with
  | BedrockRaises e => Raise e
  | BedrockBody response_body =>
      if negb (truthy (PStr response_body))
      then Ok (error_dict "Empty response from the model")
      else
        (* Parse the response content *)
        full_response ← json_loads response_body;
        content_list ← py_get full_response "content" (PList []);
        first ← py_item0 content_list;
        content ← py_get first "text" (PStr "");
        (* Extract JSON from the model response *)
        match content with
        | PStr text =>
            let start_index := py_find text "{" in
            if (start_index =? -1)%Z
            then Ok (error_dict "No JSON object found in model response")
            else
              (* Parse the JSON result *)
              json_loads (py_slice_from text start_index)
        | _ => Raise (no_attribute content "find")
        end
  end.

(** Analyze user input and model response.  The prompt built from the two
    arguments is what the service receives; [b] is how it behaves. *)
Definition analyze_details_with_bedrock (b : boundary)
    (user_input : string) (model_response : pyval) : res pyval :=
  match analyze_details_try b with
  | Ok result => Ok result
  | Raise e =>
      match exn_cls e with
      | JSONDecodeError => Ok (error_dict ("JSON parsing error: " +:+ exn_msg e))
      | _ => Ok (error_dict ("Exception occurred: " +:+ exn_msg e))
      end
  end.

(** [json.loads(obj)] on an arbitrary object. *)
Definition json_loads_obj (obj : pyval) : res pyval :=
  match obj with
  | PStr text => json_loads text
  | _ =>
      Raise (Exn TypeError
               ("the JSON object must be str, bytes or bytearray, not "
                +:+ type_name obj))
  end.

(** The [try] block of [generate_proposal]. *)
Definition generate_proposal_try (b : boundary) : res pyval :=
  match b with
  | BedrockRaises e => Raise e
  | BedrockBody response_body =>
      (* Validate response *)
      if negb (truthy (PStr response_body)) || all_space response_body
      then Ok (error_dict "Empty or invalid response from the model")
      else
        (* Parse response content *)
        raw_content ← json_loads response_body;
        content ← py_get raw_content "content" PNone;
        first ← py_item0 content;
        content_text ← py_item first "text";
        json_loads_obj content_text (* Final parsed JSON object *)
  end.

(** Generate a tailored financial proposal using Bedrock. *)
Definition generate_proposal (b : boundary) (user_input : string)
  : res pyval :=
  match generate_proposal_try b with
  | Ok result => Ok result
  | Raise e => Ok (error_dict ("Exception occurred: " +:+ exn_msg e))
  end.

End calls.

(* ===================================================================== *)
(** * One run of the script *)
(* ===================================================================== *)

(** The four places where the script invokes the model. *)
Inductive call_site : Type :=
  | GenerateOnClick     (* generate_proposal(user_input) *)
  | AnalyzeOnDisplay    (* analyze_details_with_bedrock(user_input, response) *)
  | AnalyzeOnConfirm    (* after "Confirm Details" *)
  | GenerateOnConfirm.  (* after "Confirm Details" *)

(** What a run renders and which calls it makes, in order.  The review
    form is one event for its whole loop of text inputs; spinners, columns
    and the pen mark beside each field are left out. *)
Inductive event : Type :=
  | EvTitle (body : string)
  | EvWrite (body : string)
  | EvTextArea (label : string)
  | EvMarkdown (body : string)
  | EvButton (label key : string)
  | EvTextInput (label key : string)
  | EvEditFields (details : gmap string pyval)
  | EvSubheader (body : string)
  | EvSuccess (body : string)
  | EvError (prefix : string) (detail : pyval)
  | EvJson (body : pyval)
  | EvInvoke (site : call_site).

(** What the run reads: the widget values the user left in the browser and
    the behaviour of the model at each call site.  A widget is found by its
    [key], or by its label when it has none. *)
Record env : Type := Env {
  text_area_value : string;
  text_input_value : string → pyval → string;
  button_clicked : string → bool;
  bedrock : call_site → boundary
}.

Record world : Type := World {
  session : session_state;
  rendered : list event
}.

(** How a piece of the script ends: normally, with an exception that
    reaches the top of the script, or with [st.rerun()]. *)
Inductive outcome (A : Type) : Type :=
  | Done (a : A)
  | Raised (e : exn)
  | RerunRequested.
Arguments Done {A} a.
Arguments Raised {A} e.
Arguments RerunRequested {A}.

(** State and control: the world is kept when the script stops early. *)
Definition M (A : Type) : Type := world → outcome A * world.

#[global] Instance M_ret : MRet M := fun A a w => (Done a, w).

#[global] Instance M_bind : MBind M := fun A B k m w =>
  match m w with
  | (Done a, w') => k a w'
  | (Raised e, w') => (Raised e, w')
  | (RerunRequested, w') => (RerunRequested, w')
  end.

Definition get_session : M session_state := fun w => (Done (session w), w).

Definition modify_session (f : session_state → session_state) : M unit :=
  fun w => (Done (), World (f (session w)) (rendered w)).

Definition emit (e : event) : M unit :=
  fun w => (Done (), World (session w) (rendered w ++ [e])).

Definition lift {A} (r : res A) : M A :=
  fun w => match r with
           | Ok a => (Done a, w)
           | Raise e => (Raised e, w)
           end.

Definition rerun {A} : M A := fun w => (RerunRequested, w).

(** Display the chat history. *)
Fixpoint display_chats (h : list chat) : M unit :=
  match h with
  | [] => mret ()
  | c :: h' =>
      emit (EvMarkdown ("**" +:+ sender c +:+ ":** " +:+ message c));;
      display_chats h'
  end.

(** What [display_chat_history] renders for a transcript. *)
Definition chat_markdowns (h : list chat) : list event :=
  (fun c => EvMarkdown ("**" +:+ sender c +:+ ":** " +:+ message c)) <$> h.

Definition display_chat_history : M unit :=
  s ← get_session; display_chats (chat_history s).

(** [REQUIRED_LEAD_DETAILS[key]]. *)
Definition registry_question (key : string) : res string :=
  match REQUIRED_LEAD_DETAILS !! key with
  | Some question => Ok question
  | None => Raise (Exn KeyError ("'" +:+ key +:+ "'"))
  end.

(** [[key for key in missing_keys if key not in collected_details]]. *)
Definition unanswered (missing_keys : list string)
    (collected : gmap string pyval) : list string :=
  filter (fun key => collected !! key = None) missing_keys.

(** [{**provided, **collected}]: on a key of both, the right side wins. *)
Definition merge_details (provided collected : gmap string pyval)
  : gmap string pyval :=
  collected ∪ provided.

(** The loop of the review form: one text input per detail, returning what
    the user left in it. *)
Definition edit_details (E : env) (combined_details : gmap string pyval)
  : gmap string pyval :=
  map_imap (fun key value =>
              Some (PStr (text_input_value E ("edit-" +:+ key) value)))
           combined_details.

(** What the script renders for a pending question. *)
Definition question_events (question key : string) : list event :=
  [EvTextInput question ("text-" +:+ key);
   EvButton "Submit" ("submit-" +:+ key)].

Section script.
Context `{Json}.

(** Iteratively collect missing details in Q&A format and confirm final
    details. *)
Definition collect_missing_details_interactive (E : env)
    (missing_keys : list string) : M unit :=
  s ← get_session;
  let unanswered_keys := unanswered missing_keys (collected_details s) in
  match unanswered_keys with
  | key :: _ =>
      question ← lift (registry_question key);
      (* Log the question if not already asked *)
      modify_session (log_chat "Bot" question);;
      emit (EvTextInput question ("text-" +:+ key));;
      let value := text_input_value E ("text-" +:+ key) (PStr "") in
      emit (EvButton "Submit" ("submit-" +:+ key));;
      if button_clicked E ("submit-" +:+ key) then
        if truthy (PStr value) then (* Ensure a valid response *)
          modify_session (fun s =>
            set_collected_details
              (<[key := PStr value]> (collected_details s)) s);;
          modify_session (log_chat "User" value);;
          rerun (* Restart the Streamlit app to continue *)
        else mret ()
      else mret ()
  | [] =>
      if truthy (PDict (collected_details s)) then
        emit (EvSubheader "Review Your Details");;
        (* Combine available details and Q&A collected details *)
        provided ← lift (py_get (response s) "provided_details" (PDict ∅));
        provided ← lift (py_unpack_mapping provided);
        let combined_details := merge_details provided (collected_details s) in
        (* Create editable fields for each detail *)
        emit (EvEditFields combined_details);;
        let edited_details := edit_details E combined_details in
        emit (EvButton "Confirm Details" "Confirm Details");;
        if button_clicked E "Confirm Details" then
          emit (EvSuccess "Details confirmed!");;
          (* Update the collected details with edits *)
          modify_session (set_collected_details edited_details);;
          (* Update the final response with combined details *)
          final ← lift (combine_responses (response s) edited_details);
          modify_session (set_final_response final);;
          emit (EvInvoke AnalyzeOnConfirm);;
          analyze_response ←
            lift (analyze_details_with_bedrock (bedrock E AnalyzeOnConfirm)
                    (json_dumps (PDict edited_details)) (response s));
          emit (EvInvoke GenerateOnConfirm);;
          proposal_response ←
            lift (generate_proposal (bedrock E GenerateOnConfirm)
                    (json_dumps (PDict edited_details)));
          (* Display both responses *)
          emit (EvSubheader "Generated Proposal Response:");;
          emit (EvJson proposal_response);;
          emit (EvJson analyze_response)
        else mret ()
      else
        emit (EvSuccess "All questions answered!");;
        (* Combine collected details with the MODEL RESPONSE *)
        final ← lift (combine_responses (response s) (collected_details s));
        modify_session (set_final_response final)
  end.

(** ["error" in obj]: a key of a dictionary, an element of a list, a
    substring of a string. *)
Definition py_contains_error (obj : pyval) : res bool :=
  match obj with
  | PDict d => Ok (bool_decide (is_Some (d !! "error")))
  | PList l =>
      Ok (existsb (fun x => match x with
                            | PStr t => String.eqb t "error"
                            | _ => false
                            end) l)
  | PStr t => Ok (py_in "error" t)
  | _ =>
      Raise (Exn TypeError
               ("argument of type '" +:+ type_name obj +:+ "' is not iterable"))
  end.

(** [collected_details.update(obj)]: the entries of a mapping overwrite;
    an empty sequence changes nothing. *)
Definition py_update (collected : gmap string pyval) (obj : pyval)
  : res (gmap string pyval) :=
  match obj with
  | PDict d => Ok (d ∪ collected)
  | PList [] | PStr "" => Ok collected
  | PStr _ =>
      Raise (Exn (OtherError "ValueError")
               "dictionary update sequence element #0 has length 1; 2 is required")
  | PList _ => Raise outside_data_model
  | _ => Raise (not_iterable obj)
  end.

(** The elements of a list of field names. *)
Fixpoint py_field_names (l : list pyval) : res (list string) :=
  match l with
  | [] => Ok []
  | PStr key :: l' => keys ← py_field_names l'; Ok (key :: keys)
  | _ :: _ => Raise outside_data_model
  end.

(** The characters of a string, each as a string of its own. *)
Fixpoint chars (s : string) : list string :=
  match s with
  | "" => []
  | String c s' => String c "" :: chars s'
  end.

(** The sequence that [for key in obj] walks through: the elements of a
    list of field names, the characters of a string. *)
Definition py_key_list (obj : pyval) : res (list string) :=
  match obj with
  | PList l => py_field_names l
  | PStr s => Ok (chars s)
  | PDict _ => Raise outside_data_model
  | _ => Raise (not_iterable obj)
  end.

(** The button "Generate Proposal" and what follows it. *)
Definition generate_step (E : env) (user_input : string) : M unit :=
  emit (EvButton "Generate Proposal" "Generate Proposal");;
  if button_clicked E "Generate Proposal" then
    if negb (all_space user_input) then
      emit (EvInvoke GenerateOnClick);;
      response ← lift (generate_proposal (bedrock E GenerateOnClick) user_input);
      has_error ← lift (py_contains_error response);
      if has_error : bool then
        detail ← lift (py_item response "error");
        emit (EvError "Error: " detail)
      else modify_session (set_response response)
    else mret ()
  else mret ().

(** The tax path: analyse, store what was provided, ask for the rest. *)
Definition tax_path (E : env) (user_input : string) (response : pyval)
  : M unit :=
  (* Trigger the first model: analyze_details_with_bedrock *)
  emit (EvInvoke AnalyzeOnDisplay);;
  analysis_result ←
    lift (analyze_details_with_bedrock (bedrock E AnalyzeOnDisplay)
            user_input response);
  error ← lift (py_get analysis_result "error" PNone);
  if truthy error then
    detail ← lift (py_item analysis_result "error");
    emit (EvError "Error in analysis: " detail)
  else
    provided_details ←
      lift (py_get analysis_result "provided_details" (PDict ∅));
    missing ← lift (py_get analysis_result "missing_details" (PList []));
    modify_session (set_missing_keys missing);;
    (* Store provided details *)
    s ← get_session;
    collected ← lift (py_update (collected_details s) provided_details);
    modify_session (set_collected_details collected);;
    (* Collect additional details interactively if needed *)
    if truthy missing then
      keys ← lift (py_key_list missing);
      collect_missing_details_interactive E keys
    else mret ().

(** Display the proposal or collect additional details. *)
Definition display_step (E : env) (user_input : string) : M unit :=
  s ← get_session;
  if truthy (response s) then
    let response := response s in
    if is_tax_related user_input then tax_path E user_input response
    else
      (* If not tax-related, only trigger the proposal model *)
      emit (EvSuccess
              "This proposal is not related to tax. Here's your response:");;
      modify_session (set_final_response response);;
      modify_session (set_show_final_response true)
  else mret ().

(** Display the final combined response only after details are submitted. *)
Definition final_step : M unit :=
  s ← get_session;
  if show_final_response s then
    emit (EvSubheader "Final Combined Response");;
    emit (EvJson (final_response s))
  else mret ().

(** The script from [st.title] to its end. *)
Definition main (E : env) : M unit :=
  emit (EvTitle "Financial Proposal Generator");;
  emit (EvWrite
          "Enter your business details to generate a tailored financial proposal.");;
  (* Collect user input *)
  let user_input := text_area_value E in
  emit (EvTextArea "Enter your requirements for the proposal");;
  display_chat_history;;
  generate_step E user_input;;
  display_step E user_input;;
  final_step.

(** A run starts with nothing rendered. *)
Definition run (E : env) (s : session_state) : outcome unit * world :=
  main E (World s []).

End script.

(* ===================================================================== *)
(** * A reference decoder and encoder *)
(* ===================================================================== *)

(** An instance of the [json] interface for the texts whose values fit
    [pyval] exactly: objects, arrays, strings with the one-character
    escapes, integers and the three literals.  It follows the scanner of
    CPython 3.11 ([json.decoder], [json.scanner]), positions and messages
    of [JSONDecodeError] included.  Fractions, exponents, [NaN],
    [Infinity] and [\u] escapes stop with [outside_data_model]. *)
Module JsonReference.

Inductive scan (A : Type) : Type :=
  | Scanned (a : A) (rest : string) (pos : nat)
  | ScanError (msg : string) (pos : nat)
  | ScanOutside.
Arguments Scanned {A} a rest pos.
Arguments ScanError {A} msg pos.
Arguments ScanOutside {A}.

Definition scan_map {A B} (f : A → B) (r : scan A) : scan B :=
  match r with
  | Scanned a rest pos => Scanned (f a) rest pos
  | ScanError msg pos => ScanError msg pos
  | ScanOutside => ScanOutside
  end.

Definition char (n : nat) : ascii := ascii_of_nat n.
Definition is_char (n : nat) (c : ascii) : bool := Nat.eqb (nat_of_ascii c) n.
Definition dquote : nat := 34.
Definition backslash : nat := 92.

(** [WHITESPACE]: space, tab, line feed, carriage return. *)
Definition is_ws (c : ascii) : bool :=
  is_char 32 c || is_char 9 c || is_char 10 c || is_char 13 c.

Fixpoint skip_ws (s : string) (pos : nat) : string * nat :=
  match s with
  | String c rest => if is_ws c then skip_ws rest (S pos) else (s, pos)
  | "" => (s, pos)
  end.

(** [BACKSLASH]: the character an escape letter stands for. *)
Definition unescape (esc : ascii) : option ascii :=
  if is_char dquote esc then Some (char dquote)
  else if is_char backslash esc then Some (char backslash)
  else if is_char 47 esc then Some (char 47)
  else if is_char 98 esc then Some (char 8)
  else if is_char 102 esc then Some (char 12)
  else if is_char 110 esc then Some (char 10)
  else if is_char 114 esc then Some (char 13)
  else if is_char 116 esc then Some (char 9)
  else None.

(** [scanstring]: [s] follows the opening quote, which stands at [start]. *)
Fixpoint scan_string (s : string) (pos start : nat) : scan string :=
  match s with
  | "" => ScanError "Unterminated string starting at" start
  | String c rest =>
      if is_char dquote c then Scanned "" rest (S pos)
      else if is_char backslash c then
        match rest with
        | "" => ScanError "Unterminated string starting at" start
        | String esc rest' =>
            if is_char 117 esc then ScanOutside
            else match unescape esc with
                 | Some c' =>
                     scan_map (String c') (scan_string rest' (S (S pos)) start)
                 | None => ScanError "Invalid \escape" pos
                 end
        end
      else if (nat_of_ascii c <? 32)%nat
      then ScanError "Invalid control character at" pos
      else scan_map (String c) (scan_string rest (S pos) start)
  end.

Definition is_digit (c : ascii) : bool :=
  ((48 <=? nat_of_ascii c) && (nat_of_ascii c <=? 57))%nat.

(** The digits at the head of [s], their value continuing [acc]. *)
Fixpoint scan_digits (s : string) (pos : nat) (acc : Z) : Z * string * nat :=
  match s with
  | String c rest =>
      if is_digit c
      then scan_digits rest (S pos) (10 * acc + Z.of_nat (nat_of_ascii c - 48))
      else (acc, s, pos)
  | "" => (acc, s, pos)
  end.

(** After the integer part: a fraction or an exponent makes a float. *)
Definition scan_int_end (n : Z) (s : string) (pos : nat) : scan pyval :=
  match s with
  | String c rest =>
      if is_char 46 c then
        match rest with
        | String d _ => if is_digit d then ScanOutside else Scanned (PInt n) s pos
        | "" => Scanned (PInt n) s pos
        end
      else if is_char 101 c || is_char 69 c then
        match rest with
        | String d rest' =>
            if is_digit d then ScanOutside
            else if is_char 43 d || is_char 45 d then
              match rest' with
              | String d' _ =>
                  if is_digit d' then ScanOutside else Scanned (PInt n) s pos
              | "" => Scanned (PInt n) s pos
              end
            else Scanned (PInt n) s pos
        | "" => Scanned (PInt n) s pos
        end
      else Scanned (PInt n) s pos
  | "" => Scanned (PInt n) s pos
  end.

(** The integer part of [NUMBER_RE] at the head of [s]: an optional minus
    sign, then a single zero or a digit sequence that does not start with
    zero; [start] is where a failed match is reported. *)
Definition scan_number (negative : bool) (s : string) (pos start : nat)
  : scan pyval :=
  let sign := if negative then (-1)%Z else 1%Z in
  match s with
  | String c rest =>
      if is_char 48 c then scan_int_end 0 rest (S pos)
      else if is_digit c then
        let '(n, rest', pos') := scan_digits s pos 0 in
        scan_int_end (sign * n) rest' pos'
      else ScanError "Expecting value" start
  | "" => ScanError "Expecting value" start
  end.

(** The literals and numbers of [scan_once]. *)
Definition scan_atom (s : string) (pos : nat) : scan pyval :=
  if String.prefix "null" s then Scanned PNone (string_drop 4 s) (pos + 4)
  else if String.prefix "true" s
  then Scanned (PBool true) (string_drop 4 s) (pos + 4)
  else if String.prefix "false" s
  then Scanned (PBool false) (string_drop 5 s) (pos + 5)
  else if String.prefix "NaN" s || String.prefix "Infinity" s ||
          String.prefix "-Infinity" s
  then ScanOutside
  else match s with
       | String c rest =>
           if is_char 45 c then scan_number true rest (S pos) pos
           else scan_number false s pos pos
       | "" => ScanError "Expecting value" pos
       end.

(** [scan_once], [JSONObject] and [JSONArray].  [scan_members] starts
    after the opening quote of a key, [scan_elements] at a value. *)
Fixpoint scan_once (fuel : nat) (s : string) (pos : nat) : scan pyval :=
  match fuel with
  | O => ScanOutside
  | S fuel =>
      match s with
      | "" => ScanError "Expecting value" pos
      | String c rest =>
          if is_char dquote c then scan_map PStr (scan_string rest (S pos) pos)
          else if is_char 123 c then
            let '(s1, p1) := skip_ws rest (S pos) in
            match s1 with
            | String c1 rest1 =>
                if is_char 125 c1 then Scanned (PDict ∅) rest1 (S p1)
                else if is_char dquote c1
                then scan_members fuel rest1 (S p1) ∅
                else ScanError
                       "Expecting property name enclosed in double quotes" p1
            | "" =>
                ScanError "Expecting property name enclosed in double quotes" p1
            end
          else if is_char 91 c then
            let '(s1, p1) := skip_ws rest (S pos) in
            match s1 with
            | String c1 rest1 =>
                if is_char 93 c1 then Scanned (PList []) rest1 (S p1)
                else scan_elements fuel s1 p1 []
            | "" => ScanError "Expecting value" p1
            end
          else scan_atom s pos
      end
  end
with scan_members (fuel : nat) (s : string) (pos : nat)
    (pairs : gmap string pyval) : scan pyval :=
  match fuel with
  | O => ScanOutside
  | S fuel =>
      match scan_string s pos (pos - 1) with
      | Scanned key s1 p1 =>
          let '(s2, p2) := skip_ws s1 p1 in
          match s2 with
          | String c s3 =>
              if is_char 58 c then
                let '(s4, p4) := skip_ws s3 (S p2) in
                match scan_once fuel s4 p4 with
                | Scanned value s5 p5 =>
                    let pairs := <[key := value]> pairs in
                    let '(s6, p6) := skip_ws s5 p5 in
                    match s6 with
                    | String c6 s7 =>
                        if is_char 125 c6 then Scanned (PDict pairs) s7 (S p6)
                        else if is_char 44 c6 then
                          let '(s8, p8) := skip_ws s7 (S p6) in
                          match s8 with
                          | String c8 s9 =>
                              if is_char dquote c8
                              then scan_members fuel s9 (S p8) pairs
                              else ScanError
                                     "Expecting property name enclosed in double quotes"
                                     p8
                          | "" =>
                              ScanError
                                "Expecting property name enclosed in double quotes"
                                p8
                          end
                        else ScanError "Expecting ',' delimiter" p6
                    | "" => ScanError "Expecting ',' delimiter" p6
                    end
                | ScanError msg p => ScanError msg p
                | ScanOutside => ScanOutside
                end
              else ScanError "Expecting ':' delimiter" p2
          | "" => ScanError "Expecting ':' delimiter" p2
          end
      | ScanError msg p => ScanError msg p
      | ScanOutside => ScanOutside
      end
  end
with scan_elements (fuel : nat) (s : string) (pos : nat)
    (values : list pyval) : scan pyval :=
  match fuel with
  | O => ScanOutside
  | S fuel =>
      match scan_once fuel s pos with
      | Scanned value s1 p1 =>
          let values := values ++ [value] in
          let '(s2, p2) := skip_ws s1 p1 in
          match s2 with
          | String c s3 =>
              if is_char 93 c then Scanned (PList values) s3 (S p2)
              else if is_char 44 c then
                let '(s4, p4) := skip_ws s3 (S p2) in
                scan_elements fuel s4 p4 values
              else ScanError "Expecting ',' delimiter" p2
          | "" => ScanError "Expecting ',' delimiter" p2
          end
      | ScanError msg p => ScanError msg p
      | ScanOutside => ScanOutside
      end
  end.

(** Line and column of [pos] in [doc], as [JSONDecodeError] counts them. *)
Fixpoint line_col (doc : string) (pos line col : nat) : nat * nat :=
  match pos, doc with
  | S pos', String c rest =>
      if is_char 10 c then line_col rest pos' (S line) 1
      else line_col rest pos' line (S col)
  | _, _ => (line, col)
  end.

Definition decode_error (msg doc : string) (pos : nat) : exn :=
  let '(line, col) := line_col doc pos 1 1 in
  Exn JSONDecodeError
      (msg +:+ ": line " +:+ pretty line +:+ " column " +:+ pretty col
           +:+ " (char " +:+ pretty pos +:+ ")").

(** [JSONDecoder.decode]: one value, then nothing but white space. *)
Definition loads (doc : string) : res pyval :=
  let '(s, pos) := skip_ws doc 0 in
  match scan_once (2 * String.length doc + 2) s pos with
  | Scanned value rest pos' =>
      let '(rest', stop) := skip_ws rest pos' in
      match rest' with
      | "" => Ok value
      | String _ _ => Raise (decode_error "Extra data" doc stop)
      end
  | ScanError msg pos' => Raise (decode_error msg doc pos')
  | ScanOutside => Raise outside_data_model
  end.

Definition hex_digit (n : nat) : ascii :=
  if (n <? 10)%nat then char (48 + n) else char (87 + n).

(** [ESCAPE_ASCII]: how [json.dumps] writes one character of a string. *)
Definition escape_char (c : ascii) : string :=
  let n := nat_of_ascii c in
  if is_char dquote c then String (char backslash) (String (char dquote) "")
  else if is_char backslash c
  then String (char backslash) (String (char backslash) "")
  else if is_char 10 c then "\n"
  else if is_char 13 c then "\r"
  else if is_char 9 c then "\t"
  else if is_char 8 c then "\b"
  else if is_char 12 c then "\f"
  else if ((32 <=? n) && (n <=? 126))%nat then String c ""
  else "\u00" +:+ String (hex_digit (n / 16)) (String (hex_digit (n mod 16)) "").

Fixpoint escape (s : string) : string :=
  match s with
  | "" => ""
  | String c rest => escape_char c +:+ escape rest
  end.

Definition quoted (s : string) : string :=
  String (char dquote) (escape s +:+ String (char dquote) "").

Fixpoint join (sep : string) (parts : list string) : string :=
  match parts with
  | [] => ""
  | [x] => x
  | x :: rest => x +:+ sep +:+ join sep rest
  end.

(** [json.dumps] with its default separators; the entries of a dictionary
    come in the order of the finite map. *)
Fixpoint dumps (v : pyval) : string :=
  match v with
  | PNone => "null"
  | PBool b => if b then "true" else "false"
  | PInt n => pretty n
  | PFloat lexeme _ => lexeme
  | PStr s => quoted s
  | PList l => "[" +:+ join ", " (dumps <$> l) +:+ "]"
  | PDict d =>
      "{" +:+
      join ", " (map_fold (fun key value parts =>
                             (quoted key +:+ ": " +:+ dumps value) :: parts) [] d)
      +:+ "}"
  end.

#[export] Instance json_reference : Json :=
  {| json_loads := loads; json_dumps := dumps |}.

(** Writing sample texts: every ['] stands for a double quote. *)
Fixpoint sample (s : string) : string :=
  match s with
  | "" => ""
  | String c rest =>
      String (if is_char 39 c then char dquote else c) (sample rest)
  end.

End JsonReference.

(* ===================================================================== *)
(** * Sample sessions *)
(* ===================================================================== *)

(** A browser state in which every text input holds [answer] and every
    button reads [clicked], with a model that answers [body] everywhere. *)
Definition sample_env (answer : string) (clicked : bool) (body : string) : env :=
  {| text_area_value := "Please prepare our tax filing";
     text_input_value := fun _ _ => answer;
     button_clicked := fun _ => clicked;
     bedrock := fun _ => BedrockBody body |}.

Definition industry_question : string :=
  "Which industry does your business operate in?".

(** The session after the Industry question was rendered once. *)
Definition industry_pending : session_state :=
  log_chat "Bot" industry_question initial_session.

(** The session after Industry was answered. *)
Definition industry_answered : session_state :=
  set_collected_details {[ "Industry" := PStr "Consulting" ]} industry_pending.

(** A request that does not mention taxes, and a model that answers it
    with a proposal. *)
Definition payroll_env : env :=
  {| text_area_value := "We need help with payroll only";
     text_input_value := fun _ _ => "";
     button_clicked := fun _ => true;
     bedrock := fun _ =>
       BedrockBody
         (JsonReference.sample
            "{'content':[{'text':'{\'Proposal Description\':\'Payroll support\'}'}]}") |}.

Definition payroll_draft : gmap string pyval :=
  {[ "Proposal Description" := PStr "Payroll support" ]}.

(** A draft that carries details of its own. *)
Definition sample_provided : gmap string pyval :=
  {[ "Industry" := PStr "Retail"; "Entity Type" := PStr "LLC" ]}.

Definition sample_draft : gmap string pyval :=
  {[ "Proposal Description" := PStr "Tax filing for a consultancy";
     "provided_details" := PDict sample_provided ]}.

Definition review_session : session_state :=
  set_response (PDict sample_draft) industry_answered.

(** The session an invocation leaves behind. *)
Definition session_after (r : outcome unit * world) : session_state :=
  session r.2.

(** A conversation about two missing fields, one invocation per run: the
    first question is rendered, answered, the second is rendered, answered,
    and the next run finds nothing left to ask. *)
Definition two_fields : list string := ["Industry"; "Annual Revenue"].

Definition two_fields_conversation `{Json} : session_state :=
  let start := set_response (PDict payroll_draft) initial_session in
  let asked1 :=
    session_after (collect_missing_details_interactive
                     (sample_env "" false "") two_fields (World start [])) in
  let answered1 :=
    session_after (collect_missing_details_interactive
                     (sample_env "Consulting" true "") two_fields
                     (World asked1 [])) in
  let asked2 :=
    session_after (collect_missing_details_interactive
                     (sample_env "" false "") two_fields
                     (World answered1 [])) in
  session_after (collect_missing_details_interactive
                   (sample_env "$500k" true "") two_fields (World asked2 [])).


(* ===================================================================== *)
(** * What a piece of the script leaves alone *)
(* ===================================================================== *)

(** [keeps_at R m w]: however [m] ends when started in [w], the session it
    leaves is related by [R] to the session of [w]. *)
Definition keeps_at {A} (R : relation session_state) (m : M A) (w : world)
  : Prop :=
  ∀ o w', m w = (o, w') → R (session w) (session w').

Definition keeps {A} (R : relation session_state) (m : M A) : Prop :=
  ∀ w, keeps_at R m w.

(** What the collection of details never writes (the draft, the list of
    missing keys, the flag that shows the final response) and what it only
    extends (the transcript, the set of asked questions, the keys of the
    collected details). *)
Definition collection_frame (s s' : session_state) : Prop :=
  response s' = response s ∧
  missing_keys s' = missing_keys s ∧
  show_final_response s' = show_final_response s ∧
  chat_history s `prefix_of` chat_history s' ∧
  asked_questions s ⊆ asked_questions s' ∧
  dom (collected_details s) ⊆ dom (collected_details s').

(** What no part of the script ever takes away. *)
Definition session_grows (s s' : session_state) : Prop :=
  chat_history s `prefix_of` chat_history s' ∧
  asked_questions s ⊆ asked_questions s' ∧
  dom (collected_details s) ⊆ dom (collected_details s') ∧
  (show_final_response s = true → show_final_response s' = true).

(** The flag that shows the final response is left as it was. *)
Definition show_unchanged (s s' : session_state) : Prop :=
  show_final_response s' = show_final_response s.

(** The calls of a conversation as the transcript entries they ask for. *)
Definition chats (calls : list (string * string)) : list chat :=
  (fun call => Chat call.1 call.2) <$> calls.

(** [renders_only P m w]: however [m] ends when started in [w], it has only
    added to what was rendered, and everything it added satisfies [P]. *)
Definition renders_only {A} (P : event → Prop) (m : M A) (w : world) : Prop :=
  ∀ o w', m w = (o, w') →
    ∃ added, rendered w' = rendered w ++ added ∧ Forall P added.

(** The prefix that [analyze_details_with_bedrock] puts before the message
    of an exception. *)
Definition analysis_prefix (e : exn) : string :=
  match exn_cls e with
  | JSONDecodeError => "JSON parsing error: "
  | _ => "Exception occurred: "
  end.

(** A user who answers every question: as long as a field is unanswered,
    one more invocation; at most [n] of them. *)
Fixpoint answer_all `{Json} (n : nat) (E : env) (missing_keys : list string)
    (s : session_state) : session_state :=
  match n with
  | O => s
  | S n' =>
      match unanswered missing_keys (collected_details s) with
      | [] => s
      | _ :: _ =>
          answer_all n' E missing_keys
            (session_after
               (collect_missing_details_interactive E missing_keys (World s [])))
      end
  end.

(** The answer in the text input of a field. *)
Definition answer_to (E : env) (key : string) : string :=
  text_input_value E ("text-" +:+ key) (PStr "").

(** What every run renders first. *)
Definition page_head : list event :=
  [EvTitle "Financial Proposal Generator";
   EvWrite
     "Enter your business details to generate a tailored financial proposal.";
   EvTextArea "Enter your requirements for the proposal"].

(** A model that answers with an analysis: one detail provided, one
    missing. *)
Definition analysis_env : env :=
  {| text_area_value := "Please prepare our tax filing";
     text_input_value := fun _ _ => "";
     button_clicked := fun _ => false;
     bedrock := fun _ =>
       BedrockBody
         (JsonReference.sample
            "{'content':[{'text':'{\'provided_details\':{\'Industry\':\'Retail\'},\'missing_details\':[\'Entity Type\']}'}]}") |}.

Definition analysis_result : gmap string pyval :=
  {[ "provided_details" := PDict {[ "Industry" := PStr "Retail" ]};
     "missing_details" := PList [PStr "Entity Type"] ]}.

(* ===================================================================== *)
(** * Properties *)
(* ===================================================================== *)

(** ** Strings *)

Lemma append_cons (c : ascii) (a b : string) :
  String c a +:+ b = String c (a +:+ b).
Proof. reflexivity. Qed.

Lemma append_nil (b : string) : "" +:+ b = b.
Proof. reflexivity. Qed.

Lemma prefix_spec (a b : string) :
  String.prefix a b = true ↔ ∃ post, b = a +:+ post.
Proof.
  revert b. induction a as [|c a IH]; intros b; simpl.
  - destruct b; simpl; split; eauto.
  - destruct b as [|d b]; simpl.
    + split; [discriminate | intros [post Hp]; discriminate].
    + destruct (Ascii.ascii_dec c d) as [->|Hne].
      * rewrite IH. split.
        -- intros [post ->]. by exists post.
        -- intros [post Hp]. injection Hp as ->. by exists post.
      * split; [discriminate|]. intros [post Hp]. rewrite append_cons in Hp.
        congruence.
Qed.

Lemma py_in_spec (sub s : string) : py_in sub s = true ↔ occurs_in sub s.
Proof.
  induction s as [|c s IH]; cbn [py_in].
  - rewrite orb_false_r, prefix_spec. split.
    + intros [post Hp]. exists "", post. done.
    + intros (pre & post & Hp). destruct pre; [|discriminate].
      rewrite append_nil in Hp. eauto.
  - rewrite orb_true_iff, prefix_spec, IH. split.
    + intros [[post Hp] | (pre & post & Hp)].
      * exists "", post. done.
      * exists (String c pre), post. by rewrite append_cons, Hp.
    + intros (pre & post & Hp). destruct pre as [|d pre].
      * left. rewrite append_nil in Hp. eauto.
      * right. rewrite append_cons in Hp. exists pre, post. congruence.
Qed.

Lemma existsb_elem_of {A} (f : A → bool) (l : list A) :
  existsb f l = true ↔ ∃ x, x ∈ l ∧ f x = true.
Proof.
  rewrite existsb_exists. split; intros (x & Hx & Hf); exists x;
    (split; [by apply list_elem_of_In | done]).
Qed.

(** ** The transcript *)

Lemma bot_messages_app (h1 h2 : list chat) :
  bot_messages (h1 ++ h2) = bot_messages h1 ++ bot_messages h2.
Proof. unfold bot_messages. by rewrite filter_app, fmap_app. Qed.

Lemma bot_messages_bot (m : string) : bot_messages [Chat "Bot" m] = [m].
Proof. reflexivity. Qed.

Lemma bot_messages_other (who m : string) :
  who ≠ "Bot" → bot_messages [Chat who m] = [].
Proof.
  intros Hne. unfold bot_messages. rewrite filter_cons. simpl.
  by rewrite decide_False.
Qed.

Lemma elem_of_bot_messages (m : string) (h : list chat) :
  m ∈ bot_messages h ↔ Chat "Bot" m ∈ h.
Proof.
  unfold bot_messages. rewrite list_elem_of_fmap. split.
  - intros ([who m'] & -> & Hin). apply list_elem_of_filter in Hin as [Hs Hin].
    simpl in *. by subst.
  - intros Hin. exists (Chat "Bot" m). split; [done|].
    apply list_elem_of_filter. done.
Qed.

(** A Bot message that was asked before: nothing changes. *)
Lemma log_chat_bot_asked (m : string) (s : session_state) :
  m ∈ asked_questions s → log_chat "Bot" m s = s.
Proof.
  intros Hin. unfold log_chat.
  rewrite (bool_decide_eq_true_2 _ Hin). by rewrite bool_decide_eq_true_2.
Qed.

(** A Bot message that is new: appended and remembered. *)
Lemma log_chat_bot_new (m : string) (s : session_state) :
  m ∉ asked_questions s →
  log_chat "Bot" m s =
    set_asked_questions (asked_questions s ∪ {[m]})
      (set_chat_history (chat_history s ++ [Chat "Bot" m]) s).
Proof.
  intros Hnin. unfold log_chat.
  rewrite (bool_decide_eq_false_2 _ Hnin), andb_false_r.
  by rewrite bool_decide_eq_true_2.
Qed.

(** Any other sender: appended, nothing remembered. *)
Lemma log_chat_other (who m : string) (s : session_state) :
  who ≠ "Bot" →
  log_chat who m s = set_chat_history (chat_history s ++ [Chat who m]) s.
Proof.
  intros Hne. unfold log_chat. by rewrite !(bool_decide_eq_false_2 _ Hne).
Qed.

Lemma transcript_ok_initial : transcript_ok initial_session.
Proof.
  split; simpl; [constructor|]. intros m. split; [set_solver|].
  by intros ?%elem_of_nil.
Qed.

Lemma transcript_ok_log_chat (who m : string) (s : session_state) :
  transcript_ok s → transcript_ok (log_chat who m s).
Proof.
  intros [Hnd Hasked]. destruct (decide (who = "Bot")) as [->|Hne].
  - destruct (decide (m ∈ asked_questions s)) as [Hin|Hnin].
    + by rewrite log_chat_bot_asked.
    + rewrite log_chat_bot_new by done. split; simpl.
      * rewrite bot_messages_app, bot_messages_bot.
        apply NoDup_app. split_and!; [done | | apply NoDup_singleton].
        intros x Hx ->%list_elem_of_singleton. by apply Hnin, Hasked.
      * intros x. rewrite bot_messages_app, bot_messages_bot.
        rewrite elem_of_union, elem_of_app, elem_of_singleton,
          list_elem_of_singleton. by rewrite Hasked.
  - rewrite log_chat_other by done. split; simpl.
    + by rewrite bot_messages_app, bot_messages_other, app_nil_r.
    + intros x. by rewrite bot_messages_app, bot_messages_other, app_nil_r.
Qed.

Lemma transcript_ok_log_all (calls : list (string * string)) (s : session_state) :
  transcript_ok s → transcript_ok (log_all calls s).
Proof.
  revert s. induction calls as [|[who m] calls IH]; intros s Hs; simpl; [done|].
  apply IH. by apply transcript_ok_log_chat.
Qed.

(** In a list without duplicates among the Bot messages, two Bot entries
    with the same text are the same entry. *)
Lemma bot_entries_unique (h : list chat) (i j : nat) (m : string) :
  NoDup (bot_messages h) →
  h !! i = Some (Chat "Bot" m) → h !! j = Some (Chat "Bot" m) → i = j.
Proof.
  revert i j. induction h as [|[who t] h IH]; intros i j Hnd Hi Hj.
  - by rewrite lookup_nil in Hi.
  - unfold bot_messages in Hnd. rewrite filter_cons in Hnd. simpl in Hnd.
    destruct (decide (who = "Bot")) as [->|Hne]; simpl in Hnd.
    + apply NoDup_cons in Hnd as [Hnotin Hnd].
      destruct i as [|i], j as [|j]; simpl in *; try done.
      * simplify_eq. exfalso. apply Hnotin.
        apply elem_of_bot_messages. by eapply list_elem_of_lookup_2.
      * simplify_eq. exfalso. apply Hnotin.
        apply elem_of_bot_messages. by eapply list_elem_of_lookup_2.
      * f_equal. by apply IH.
    + destruct i as [|i], j as [|j]; simpl in *; try congruence.
      f_equal. by apply IH.
Qed.

(** ** Claims about the transcript *)

(** C5: in the transcript reached by any sequence of [log_chat] calls from
    the empty session no two Bot entries carry the same text; a Bot message
    that is already in [asked_questions] changes nothing, and one that is
    not is appended to the transcript and added to [asked_questions]. *)
Theorem bot_message_logged_once (calls : list (string * string)) :
  let s := log_all calls initial_session in
  (∀ i j m,
     chat_history s !! i = Some (Chat "Bot" m) →
     chat_history s !! j = Some (Chat "Bot" m) → i = j) ∧
  (∀ s0 m, m ∈ asked_questions s0 → log_chat "Bot" m s0 = s0) ∧
  (∀ s0 m, m ∉ asked_questions s0 →
     chat_history (log_chat "Bot" m s0) = chat_history s0 ++ [Chat "Bot" m] ∧
     asked_questions (log_chat "Bot" m s0) = asked_questions s0 ∪ {[m]}).
Proof.
  intros s. split_and!.
  - intros i j m. apply bot_entries_unique.
    apply (transcript_ok_log_all calls initial_session transcript_ok_initial).
  - intros s0 m. apply log_chat_bot_asked.
  - intros s0 m Hnew. by rewrite log_chat_bot_new.
Qed.

(** C10: a message of any sender other than the Bot is appended to the
    transcript whatever it already holds, and [asked_questions] stays as it
    is; logging it twice leaves two equal entries; and every text in
    [asked_questions] is the text of a Bot entry of the transcript. *)
Theorem other_sender_always_logged (who m : string) (s : session_state) :
  who ≠ "Bot" →
  chat_history (log_chat who m s) = chat_history s ++ [Chat who m] ∧
  asked_questions (log_chat who m s) = asked_questions s ∧
  chat_history (log_chat who m (log_chat who m s))
    = chat_history s ++ [Chat who m; Chat who m] ∧
  (∀ calls text,
     text ∈ asked_questions (log_all calls initial_session) →
     Chat "Bot" text ∈ chat_history (log_all calls initial_session)).
Proof.
  intros Hne. rewrite !log_chat_other by done. simpl. split_and!; try done.
  - by rewrite <- app_assoc.
  - intros calls text Hin. apply elem_of_bot_messages.
    by apply (transcript_ok_log_all calls initial_session transcript_ok_initial).
Qed.

Lemma other_sender_always_logged_witness :
  chat_history (log_chat "User" "LLC" (log_chat "User" "LLC" initial_session))
    = [Chat "User" "LLC"; Chat "User" "LLC"].
Proof.
  destruct (other_sender_always_logged "User" "LLC" initial_session
              ltac:(discriminate)) as (_ & _ & Htwice & _).
  exact Htwice.
Defined.

(** ** Claims about the combiner *)

Lemma combine_responses_mapping
    (model_response collected provided : gmap string pyval) :
  provided_details_of model_response = PDict provided →
  combine_responses (PDict model_response) collected
    = Ok (PDict (<["provided_details" := PDict provided]> model_response)).
Proof.
  unfold provided_details_of. intros Hprov.
  unfold combine_responses, py_get. cbn [mbind res_bind]. by rewrite Hprov.
Qed.

(** C1: for a model response whose [provided_details] is a mapping, or is
    absent and then counts as the empty mapping, [combine_responses] returns
    the model response with [provided_details] set to that mapping: every
    other entry is the model response's own, and the result is the same for
    every [collected_details]. *)
Theorem combine_responses_keeps_model_details
    (model_response collected_details provided : gmap string pyval) :
  provided_details_of model_response = PDict provided →
  ∃ combined,
    combine_responses (PDict model_response) collected_details
      = Ok (PDict combined) ∧
    combined !! "provided_details" = Some (PDict provided) ∧
    (∀ key, key ≠ "provided_details" → combined !! key = model_response !! key) ∧
    (∀ other, combine_responses (PDict model_response) other = Ok (PDict combined)).
Proof.
  intros Hprov.
  exists (<["provided_details" := PDict provided]> model_response).
  split_and!.
  - by apply combine_responses_mapping.
  - apply lookup_insert_eq.
  - intros key Hkey. by rewrite lookup_insert_ne.
  - intros other. by apply combine_responses_mapping.
Qed.

Lemma combine_responses_keeps_model_details_witness :
  ∃ combined,
    combine_responses (PDict {[ "Proposal Description" := PStr "Bookkeeping" ]})
                      {[ "Industry" := PStr "Consulting" ]}
      = Ok (PDict combined) ∧
    combined !! "provided_details" = Some (PDict ∅) ∧
    combined !! "Industry" = None.
Proof.
  assert (provided_details_of {[ "Proposal Description" := PStr "Bookkeeping" ]}
          = PDict ∅) as Habsent by (vm_compute; reflexivity).
  destruct (combine_responses_keeps_model_details
              _ {[ "Industry" := PStr "Consulting" ]} _ Habsent)
    as (combined & Hrun & Hdetails & Hrest & _).
  exists combined. split_and!; [exact Hrun | exact Hdetails |].
  rewrite Hrest by discriminate. reflexivity.
Defined.

(** ** The run monad *)

Ltac run_step :=
  unfold mbind, M_bind, mret, M_ret, get_session, modify_session, emit, lift,
    rerun; cbn [session rendered fst snd].

Lemma truthy_dict (d : gmap string pyval) : truthy (PDict d) = true ↔ d ≠ ∅.
Proof.
  cbn [truthy]. rewrite <- (map_to_list_empty_iff d).
  destruct (map_to_list d); split; (done || congruence).
Qed.

Lemma truthy_str_empty : truthy (PStr "") = false.
Proof. reflexivity. Qed.

Lemma asked_log_chat_bot (m : string) (s : session_state) :
  m ∈ asked_questions (log_chat "Bot" m s).
Proof.
  destruct (decide (m ∈ asked_questions s)) as [Hin|Hnin].
  - by rewrite log_chat_bot_asked.
  - rewrite log_chat_bot_new by done. simpl. set_solver.
Qed.

Lemma asked_log_chat_mono (who m x : string) (s : session_state) :
  x ∈ asked_questions s → x ∈ asked_questions (log_chat who m s).
Proof.
  intros Hx. destruct (decide (who = "Bot")) as [->|Hne].
  - destruct (decide (m ∈ asked_questions s)) as [Hin|Hnin].
    + by rewrite log_chat_bot_asked.
    + rewrite log_chat_bot_new by done. simpl. set_solver.
  - by rewrite log_chat_other.
Qed.

(** The first unanswered key splits the list of missing keys: everything
    before it is answered, and it is not. *)
Lemma unanswered_head (missing_keys : list string)
    (collected : gmap string pyval) (key : string) (rest : list string) :
  unanswered missing_keys collected = key :: rest →
  ∃ before after,
    missing_keys = before ++ key :: after ∧
    Forall (fun k => is_Some (collected !! k)) before ∧
    collected !! key = None.
Proof.
  unfold unanswered. induction missing_keys as [|k l IH]; [done|].
  rewrite filter_cons. destruct (decide (collected !! k = None)) as [Hk|Hk].
  - intros [= -> _]. by exists [], l.
  - intros (before & after & -> & Hbefore & Hkey)%IH.
    exists (k :: before), after. split_and!; [done | | done].
    constructor; [|done]. by destruct (collected !! k).
Qed.

Section script_facts.
Context `{Json}.

(** Neither call lets an exception out. *)
Lemma analyze_details_returns (b : boundary) (user_input : string)
    (model_response : pyval) :
  ∃ result, analyze_details_with_bedrock b user_input model_response = Ok result.
Proof.
  unfold analyze_details_with_bedrock.
  destruct (analyze_details_try b) as [v|[cls msg]]; [by eexists|].
  destruct cls; by eexists.
Qed.

Lemma generate_proposal_returns (b : boundary) (user_input : string) :
  ∃ result, generate_proposal b user_input = Ok result.
Proof.
  unfold generate_proposal. destruct (generate_proposal_try b); by eexists.
Qed.

(** What one invocation does when a question is pending, for each of the
    three things the user may have done. *)
Lemma collect_pending (E : env) (missing_keys : list string) (w : world)
    (key question : string) (rest : list string) :
  unanswered missing_keys (collected_details (session w)) = key :: rest →
  REQUIRED_LEAD_DETAILS !! key = Some question →
  let asked := log_chat "Bot" question (session w) in
  let shown := rendered w ++ question_events question key in
  let value := text_input_value E ("text-" +:+ key) (PStr "") in
  collect_missing_details_interactive E missing_keys w =
    if button_clicked E ("submit-" +:+ key) && truthy (PStr value)
    then (RerunRequested,
          World (log_chat "User" value
                   (set_collected_details
                      (<[key := PStr value]> (collected_details asked)) asked))
                shown)
    else (Done (), World asked shown).
Proof.
  intros Hun Hq asked shown value.
  unfold collect_missing_details_interactive. run_step. rewrite Hun.
  unfold registry_question. rewrite Hq. run_step.
  fold value. unfold shown, question_events. rewrite <- app_assoc. simpl.
  destruct (button_clicked E _); [|done]. simpl.
  by destruct (negb (String.eqb value "")).
Qed.

End script_facts.


(** ** Claims about the collection of details *)

Section collecting.
Context `{Json}.

(** C6: when some missing field is unanswered, the invocation picks the
    first element of the missing-details list that is not a key of the
    collected details (every element before it is answered, it is not),
    and the question it renders and logs is the registry's question for
    that field; a field without a registry entry stops the script with
    [KeyError] before anything is rendered. *)
Theorem first_unanswered_field_is_asked (E : env) (missing_keys : list string)
    (w : world) :
  unanswered missing_keys (collected_details (session w)) ≠ [] →
  ∃ before key after,
    missing_keys = before ++ key :: after ∧
    Forall (fun k => is_Some (collected_details (session w) !! k)) before ∧
    collected_details (session w) !! key = None ∧
    match REQUIRED_LEAD_DETAILS !! key with
    | Some question =>
        ∃ o w',
          collect_missing_details_interactive E missing_keys w = (o, w') ∧
          rendered w' = rendered w ++ question_events question key ∧
          question ∈ asked_questions (session w')
    | None =>
        collect_missing_details_interactive E missing_keys w
          = (Raised (Exn KeyError ("'" +:+ key +:+ "'")), w)
    end.
Proof.
  intros Hsome.
  destruct (unanswered missing_keys (collected_details (session w)))
    as [|key rest] eqn:Hun; [done|].
  destruct (unanswered_head _ _ _ _ Hun) as (before & after & Hsplit & Hbefore & Hkey).
  exists before, key, after. split_and!; [done..|].
  destruct (REQUIRED_LEAD_DETAILS !! key) as [question|] eqn:Hq.
  - rewrite (collect_pending E missing_keys w key question rest Hun Hq).
    destruct (button_clicked E _ && truthy _); eexists _, _;
      (split_and!; [reflexivity | reflexivity |]); cbn [session].
    + apply asked_log_chat_mono. simpl. apply asked_log_chat_bot.
    + apply asked_log_chat_bot.
  - unfold collect_missing_details_interactive. run_step. rewrite Hun.
    unfold registry_question. rewrite Hq. by destruct w.
Qed.

(** C7, as the code has it: with a question pending (it was rendered and
    logged by the invocation that showed the Submit button), submitting the
    empty string ends the invocation normally and leaves the whole session,
    so the collected details, the transcript and the pending question, as
    it was. *)
Theorem empty_answer_changes_nothing (E : env) (missing_keys : list string)
    (w : world) (key question : string) :
  head (unanswered missing_keys (collected_details (session w))) = Some key →
  REQUIRED_LEAD_DETAILS !! key = Some question →
  question ∈ asked_questions (session w) →
  button_clicked E ("submit-" +:+ key) = true →
  text_input_value E ("text-" +:+ key) (PStr "") = "" →
  ∃ w',
    collect_missing_details_interactive E missing_keys w = (Done (), w') ∧
    session w' = session w ∧
    head (unanswered missing_keys (collected_details (session w'))) = Some key.
Proof.
  intros Hhead Hq Hasked Hclick Hvalue.
  destruct (unanswered missing_keys (collected_details (session w)))
    as [|key' rest] eqn:Hun; [done|]. injection Hhead as ->.
  rewrite (collect_pending E missing_keys w key question rest Hun Hq).
  rewrite Hclick, Hvalue, truthy_str_empty. simpl.
  eexists. split; [reflexivity|]. cbn [session].
  rewrite log_chat_bot_asked by done. by rewrite Hun.
Qed.

(** Rendering a question makes it pending: this is how the hypothesis of
    the previous theorem comes about. *)
Lemma rendered_question_is_pending (E : env) (missing_keys : list string)
    (w : world) (key question : string) :
  head (unanswered missing_keys (collected_details (session w))) = Some key →
  REQUIRED_LEAD_DETAILS !! key = Some question →
  button_clicked E ("submit-" +:+ key) = false →
  ∃ w',
    collect_missing_details_interactive E missing_keys w = (Done (), w') ∧
    question ∈ asked_questions (session w') ∧
    collected_details (session w') = collected_details (session w).
Proof.
  intros Hhead Hq Hclick.
  destruct (unanswered missing_keys (collected_details (session w)))
    as [|key' rest] eqn:Hun; [done|]. injection Hhead as ->.
  rewrite (collect_pending E missing_keys w key question rest Hun Hq).
  rewrite Hclick. simpl. eexists. split; [reflexivity|]. cbn [session]. split.
  - apply asked_log_chat_bot.
  - unfold log_chat. by repeat case_match.
Qed.

End collecting.

Import JsonReference.

Lemma first_unanswered_field_is_asked_witness :
  unanswered ["Industry"; "Annual Revenue"]
    (collected_details (session (World industry_answered []))) ≠ [] ∧
  ∃ before key after,
    ["Industry"; "Annual Revenue"] = before ++ key :: after ∧
    Forall (fun k => is_Some (collected_details industry_answered !! k)) before ∧
    collected_details industry_answered !! key = None.
Proof.
  assert (unanswered ["Industry"; "Annual Revenue"]
            (collected_details (session (World industry_answered []))) ≠ [])
    as Hsome by (vm_compute; discriminate).
  split; [exact Hsome|].
  destruct (first_unanswered_field_is_asked (sample_env "" false "")
              ["Industry"; "Annual Revenue"] (World industry_answered []) Hsome)
    as (before & key & after & Hsplit & Hbefore & Hkey & _).
  by exists before, key, after.
Defined.

Lemma empty_answer_changes_nothing_witness :
  ∃ w',
    collect_missing_details_interactive (sample_env "" true "") ["Industry"]
      (World industry_pending []) = (Done (), w') ∧
    session w' = industry_pending.
Proof.
  assert (head (unanswered ["Industry"]
                  (collected_details (session (World industry_pending []))))
          = Some "Industry") as Hhead by (vm_compute; reflexivity).
  assert (REQUIRED_LEAD_DETAILS !! "Industry" = Some industry_question)
    as Hq by (vm_compute; reflexivity).
  assert (industry_question ∈ asked_questions (session (World industry_pending [])))
    as Hasked by apply asked_log_chat_bot.
  destruct (empty_answer_changes_nothing (sample_env "" true "") ["Industry"]
              (World industry_pending []) "Industry" industry_question
              Hhead Hq Hasked eq_refl eq_refl) as (w' & Hrun & Hsame & _).
  by exists w'.
Defined.

(** C7, as the claim has it, fails for a blank answer that is not empty: a
    single space is white space only, yet it is stored as the answer, logged
    to the transcript, and the script asks for a rerun. *)
Lemma blank_answer_is_stored :
  let E := sample_env " " true "" in
  let result := collect_missing_details_interactive E ["Industry"]
                  (World industry_pending []) in
  all_space " " = true ∧
  result.1 = RerunRequested ∧
  collected_details (session result.2) !! "Industry" = Some (PStr " ") ∧
  chat_history (session result.2)
    = chat_history industry_pending ++ [Chat "User" " "].
Proof. vm_compute. by split_and!. Qed.

Lemma merge_details_lookup (provided collected : gmap string pyval)
    (key : string) :
  merge_details provided collected !! key =
    match collected !! key with
    | Some value => Some value
    | None => provided !! key
    end.
Proof.
  unfold merge_details. rewrite lookup_union.
  destruct (collected !! key), (provided !! key); done.
Qed.

Section reviewing.
Context `{Json}.

(** C8: when no missing field is unanswered and something was collected,
    the invocation enters the review: it renders the review heading, and
    for a draft whose [provided_details] is a mapping (the empty one when
    absent) the form it renders next holds the entries of that mapping and
    of the collected details, a key of both with the collected value. *)
Theorem review_presents_merged_details (E : env) (missing_keys : list string)
    (w : world) :
  unanswered missing_keys (collected_details (session w)) = [] →
  collected_details (session w) ≠ ∅ →
  ∃ o w' shown,
    collect_missing_details_interactive E missing_keys w = (o, w') ∧
    rendered w' = rendered w ++ EvSubheader "Review Your Details" :: shown ∧
    (∀ draft provided,
       response (session w) = PDict draft →
       provided_details_of draft = PDict provided →
       ∃ later,
         shown = EvEditFields
                   (merge_details provided (collected_details (session w)))
                 :: EvButton "Confirm Details" "Confirm Details" :: later) ∧
    (∀ provided key,
       merge_details provided (collected_details (session w)) !! key =
         match collected_details (session w) !! key with
         | Some value => Some value
         | None => provided !! key
         end).
Proof.
  intros Hun Hsome. apply truthy_dict in Hsome.
  unfold collect_missing_details_interactive. run_step. rewrite Hun, Hsome.
  run_step.
  destruct (response (session w)) as [| | | | |l|draft] eqn:Hresp;
    try (eexists _, _, []; split_and!;
         [reflexivity | reflexivity | by intros ? ? [=]
         | intros; apply merge_details_lookup]).
  cbn [py_get]. set (provided := default (PDict ∅) (draft !! "provided_details")).
  assert (provided_details_of draft = provided) as Hprov by done.
  destruct provided as [| | | | | |provided];
    try (eexists _, _, []; split_and!;
         [reflexivity | reflexivity
         | intros ? ? [= <-]; by rewrite Hprov
         | intros; apply merge_details_lookup]).
  cbn [py_unpack_mapping]. run_step.
  destruct (button_clicked E "Confirm Details").
  - rewrite (combine_responses_mapping draft _ provided Hprov). run_step.
    destruct (analyze_details_returns (bedrock E AnalyzeOnConfirm)
                (json_dumps (PDict (edit_details E
                   (merge_details provided (collected_details (session w))))))
                (PDict draft)) as [analysis ->].
    destruct (generate_proposal_returns (bedrock E GenerateOnConfirm)
                (json_dumps (PDict (edit_details E
                   (merge_details provided (collected_details (session w)))))))
      as [proposal ->].
    eexists _, _, _. split_and!; [reflexivity | | | intros; apply merge_details_lookup].
    + cbn [rendered]. rewrite <- !app_assoc. reflexivity.
    + intros ? ? [= <-]. rewrite Hprov. intros [= <-]. eexists. reflexivity.
  - eexists _, _, _. split_and!; [reflexivity | | | intros; apply merge_details_lookup].
    + cbn [rendered]. rewrite <- !app_assoc. reflexivity.
    + intros ? ? [= <-]. rewrite Hprov. intros [= <-]. eexists. reflexivity.
Qed.

End reviewing.

Lemma review_presents_merged_details_witness :
  ∃ o w' later,
    collect_missing_details_interactive (sample_env "" false "") ["Industry"]
      (World review_session []) = (o, w') ∧
    rendered w' =
      EvSubheader "Review Your Details"
      :: EvEditFields (merge_details sample_provided
                         (collected_details review_session))
      :: EvButton "Confirm Details" "Confirm Details" :: later ∧
    merge_details sample_provided (collected_details review_session)
      !! "Industry" = Some (PStr "Consulting") ∧
    merge_details sample_provided (collected_details review_session)
      !! "Entity Type" = Some (PStr "LLC").
Proof.
  assert (unanswered ["Industry"]
            (collected_details (session (World review_session []))) = [])
    as Hnone by (vm_compute; reflexivity).
  assert (collected_details (session (World review_session [])) ≠ ∅)
    as Hsome by (apply truthy_dict; vm_compute; reflexivity).
  destruct (review_presents_merged_details (sample_env "" false "")
              ["Industry"] (World review_session []) Hnone Hsome)
    as (o & w' & shown & Hrun & Hshown & Hform & Hlookup).
  cbn [session rendered app] in Hshown, Hform, Hlookup.
  destruct (Hform sample_draft sample_provided eq_refl
              ltac:(vm_compute; reflexivity)) as [later ->].
  exists o, w', later. split_and!; [exact Hrun | exact Hshown | |].
  - rewrite (Hlookup sample_provided "Industry"). vm_compute. reflexivity.
  - rewrite (Hlookup sample_provided "Entity Type"). vm_compute. reflexivity.
Defined.

(** ** Claims about the relevance gate *)

Lemma display_chats_run (h : list chat) (w : world) :
  display_chats h w = (Done (), World (session w) (rendered w ++ chat_markdowns h)).
Proof.
  revert w. induction h as [|c h IH]; intros w; simpl.
  - unfold mret, M_ret. rewrite app_nil_r. by destruct w.
  - run_step. rewrite IH. cbn [session rendered]. by rewrite <- app_assoc.
Qed.

Lemma is_tax_related_spec (text : string) :
  is_tax_related text = true ↔
  ∃ keyword, keyword ∈ TAX_KEYWORDS ∧ occurs_in keyword (lower text).
Proof.
  unfold is_tax_related. rewrite existsb_elem_of.
  by setoid_rewrite py_in_spec.
Qed.

Section gate.
Context `{Json}.

(** The branch of the script for a request that is not tax-related. *)
Lemma display_step_not_tax (E : env) (user_input : string) (w : world) :
  is_tax_related user_input = false →
  truthy (response (session w)) = true →
  display_step E user_input w =
    (Done (),
     World (set_show_final_response true
              (set_final_response (response (session w)) (session w)))
           (rendered w ++
            [EvSuccess "This proposal is not related to tax. Here's your response:"])).
Proof.
  intros Hgate Hdraft. unfold display_step. run_step.
  by rewrite Hdraft, Hgate.
Qed.

(** C9: [is_tax_related] holds exactly when the lower-cased text contains
    one of the keywords; the payroll request does not; and for a request
    that does not, the script takes the draft it holds, stores it as the
    final response and shows it, without analysing or collecting anything:
    this is all that [display_step] does, and a run in which
    [generate_proposal] has just returned the draft ends with that draft as
    the final response. *)
Theorem not_tax_related_skips_collection :
  (∀ text,
     is_tax_related text = true ↔
     ∃ keyword, keyword ∈ TAX_KEYWORDS ∧ occurs_in keyword (lower text)) ∧
  is_tax_related "We need help with payroll only" = false ∧
  (∀ E user_input w,
     is_tax_related user_input = false →
     truthy (response (session w)) = true →
     display_step E user_input w =
       (Done (),
        World (set_show_final_response true
                 (set_final_response (response (session w)) (session w)))
              (rendered w ++
               [EvSuccess
                  "This proposal is not related to tax. Here's your response:"]))) ∧
  (∀ E s draft,
     is_tax_related (text_area_value E) = false →
     button_clicked E "Generate Proposal" = true →
     all_space (text_area_value E) = false →
     generate_proposal (bedrock E GenerateOnClick) (text_area_value E)
       = Ok (PDict draft) →
     draft !! "error" = None →
     draft ≠ ∅ →
     run E s =
       (Done (),
        World (set_show_final_response true
                 (set_final_response (PDict draft)
                    (set_response (PDict draft) s)))
              ([EvTitle "Financial Proposal Generator";
                EvWrite
                  "Enter your business details to generate a tailored financial proposal.";
                EvTextArea "Enter your requirements for the proposal"]
               ++ chat_markdowns (chat_history s)
               ++ [EvButton "Generate Proposal" "Generate Proposal";
                   EvInvoke GenerateOnClick;
                   EvSuccess
                     "This proposal is not related to tax. Here's your response:";
                   EvSubheader "Final Combined Response";
                   EvJson (PDict draft)]))).
Proof.
  split_and!.
  - apply is_tax_related_spec.
  - vm_compute. reflexivity.
  - apply display_step_not_tax.
  - intros E s draft Hgate Hclick Hinput Hdraft Hnoerr Hsome.
    apply truthy_dict in Hsome.
    unfold run, main, display_chat_history. run_step.
    rewrite display_chats_run. cbn [session rendered].
    unfold generate_step. run_step. rewrite Hclick, Hinput. cbn [negb].
    run_step. rewrite Hdraft. cbn [py_contains_error]. rewrite Hnoerr.
    rewrite bool_decide_eq_false_2 by (by intros [? ?]).
    cbn [session rendered].
    rewrite display_step_not_tax by done.
    unfold final_step. run_step. simpl.
    rewrite <- !app_assoc. reflexivity.
Qed.

End gate.

Lemma not_tax_related_skips_collection_witness :
  is_tax_related (text_area_value payroll_env) = false ∧
  final_response (session (run payroll_env initial_session).2)
    = PDict payroll_draft ∧
  collected_details (session (run payroll_env initial_session).2) = ∅.
Proof.
  assert (is_tax_related (text_area_value payroll_env) = false)
    as Hgate by (vm_compute; reflexivity).
  assert (generate_proposal (bedrock payroll_env GenerateOnClick)
            (text_area_value payroll_env) = Ok (PDict payroll_draft))
    as Hdraft by (vm_compute; reflexivity).
  assert (payroll_draft ≠ ∅)
    as Hsome by (apply truthy_dict; vm_compute; reflexivity).
  destruct not_tax_related_skips_collection as (_ & _ & _ & Hrun).
  rewrite (Hrun payroll_env initial_session payroll_draft Hgate eq_refl
             ltac:(vm_compute; reflexivity) Hdraft
             ltac:(vm_compute; reflexivity) Hsome).
  split_and!; [exact Hgate | reflexivity | reflexivity].
Defined.

(** ** Claims about the two calls *)

Ltac res_step :=
  cbn [mbind res_bind default from_option id py_get py_item0 py_item
       json_loads_obj negb orb].

Lemma find_index_drop (sub s : string) (i : nat) :
  find_index sub s = Some i → String.prefix sub (string_drop i s) = true.
Proof.
  revert i. induction s as [|c s IH]; intros i; cbn [find_index].
  - destruct (String.prefix sub "") eqn:Hp; [|done]. by intros [= <-].
  - destruct (String.prefix sub (String c s)) eqn:Hp.
    + by intros [= <-].
    + destruct (find_index sub s) as [j|]; [|done]. intros [= <-].
      simpl. by apply IH.
Qed.

Lemma py_slice_from_nat (s : string) (i : nat) :
  py_slice_from s (Z.of_nat i) = string_drop i s.
Proof.
  unfold py_slice_from. destruct (Z.ltb_spec (Z.of_nat i) 0); [lia|].
  by rewrite Nat2Z.id.
Qed.

(** Where [find] succeeds, the slice it selects starts with the brace. *)
Lemma slice_at_find (text : string) :
  py_find text "{" ≠ (-1)%Z →
  ∃ rest, py_slice_from text (py_find text "{") = String "{" rest.
Proof.
  unfold py_find. destruct (find_index "{" text) as [i|] eqn:Hfind; [|done].
  intros _. rewrite py_slice_from_nat. apply find_index_drop in Hfind.
  apply prefix_spec in Hfind as [post ->]. by exists post.
Qed.

(** Prose without a brace in front of an object is cut off by the slice. *)
Lemma slice_drops_prose (prose rest : string) :
  py_in "{" prose = false →
  py_find (prose +:+ String "{" rest) "{" ≠ (-1)%Z ∧
  py_slice_from (prose +:+ String "{" rest) (py_find (prose +:+ String "{" rest) "{")
    = String "{" rest.
Proof.
  intros Hprose.
  assert (find_index "{" (prose +:+ String "{" rest) = Some (String.length prose)
          ∧ string_drop (String.length prose) (prose +:+ String "{" rest)
            = String "{" rest) as [Hfind Hdrop].
  { induction prose as [|c prose IH].
    - split; [|done]. rewrite append_nil. cbn [find_index].
      replace (String.prefix "{" (String "{" rest)) with true; [done|].
      symmetry. apply prefix_spec. by exists rest.
    - cbn [py_in] in Hprose. apply orb_false_iff in Hprose as [Hhead Htail].
      rewrite append_cons. cbn [find_index string_drop String.length].
      replace (String.prefix "{" (String c (prose +:+ String "{" rest)))
        with false.
      + destruct (IH Htail) as [-> ->]. done.
      + symmetry. apply not_true_is_false. intros [post Hp]%prefix_spec.
        apply not_true_iff_false in Hhead. apply Hhead, prefix_spec.
        rewrite append_cons, append_nil in Hp. injection Hp as -> _.
        by exists prose. }
  unfold py_find. rewrite Hfind. split; [lia|].
  by rewrite py_slice_from_nat.
Qed.

Section call_facts.
Context `{Json}.

(** What either call returns is the result of its [try] block or an error
    dictionary. *)
Lemma analyze_details_result (b : boundary) (user_input : string)
    (model_response : pyval) :
  ∃ result,
    analyze_details_with_bedrock b user_input model_response = Ok result ∧
    (analyze_details_try b = Ok result ∨ ∃ msg, result = error_dict msg).
Proof.
  unfold analyze_details_with_bedrock.
  destruct (analyze_details_try b) as [v|[cls msg]]; [by eauto|].
  destruct cls; eauto.
Qed.

Lemma generate_proposal_result (b : boundary) (user_input : string) :
  ∃ result,
    generate_proposal b user_input = Ok result ∧
    (generate_proposal_try b = Ok result ∨ ∃ msg, result = error_dict msg).
Proof.
  unfold generate_proposal. destruct (generate_proposal_try b); eauto.
Qed.

(** The analysis returns a dictionary whatever the model does. *)
Lemma analyze_details_returns_dict (b : boundary) (user_input : string)
    (model_response : pyval) :
  decodes_objects →
  ∃ d, analyze_details_with_bedrock b user_input model_response = Ok (PDict d).
Proof.
  intros Hobjects.
  destruct (analyze_details_result b user_input model_response)
    as (result & -> & [Htry | [msg ->]]); [|by eexists].
  enough (∃ d, result = PDict d) as [d ->] by eauto.
  unfold analyze_details_try in Htry. destruct b as [e|body]; [done|].
  destruct (negb (truthy (PStr body))); [injection Htry as <-; by eexists|].
  destruct (json_loads body) as [full|]; [|done]. cbn [mbind res_bind] in Htry.
  destruct (py_get full "content" (PList [])) as [content_list|]; [|done].
  cbn [mbind res_bind] in Htry.
  destruct (py_item0 content_list) as [first|]; [|done].
  cbn [mbind res_bind] in Htry.
  destruct (py_get first "text" (PStr "")) as [content|]; [|done].
  cbn [mbind res_bind] in Htry.
  destruct content as [| | | |text| |]; try done.
  destruct (Z.eqb_spec (py_find text "{") (-1)) as [|Hfound].
  - injection Htry as <-. by eexists.
  - destruct (slice_at_find text Hfound) as [rest Hslice].
    rewrite Hslice in Htry. by eapply Hobjects.
Qed.

(** With the object anywhere behind brace-free prose, the analysis decodes
    the text from the brace on, and the proposal call decodes all of it. *)
Lemma calls_on_prose (body prose rest : string) (full first : gmap string pyval)
    (others : list pyval) :
  all_space body = false →
  json_loads body = Ok (PDict full) →
  full !! "content" = Some (PList (PDict first :: others)) →
  first !! "text" = Some (PStr (prose +:+ String "{" rest)) →
  py_in "{" prose = false →
  analyze_details_try (BedrockBody body) = json_loads (String "{" rest) ∧
  generate_proposal_try (BedrockBody body)
    = json_loads (prose +:+ String "{" rest).
Proof.
  intros Hbody Hfull Hcontent Htext Hprose.
  assert (truthy (PStr body) = true) as Htruthy.
  { destruct body; [done|reflexivity]. }
  unfold analyze_details_try, generate_proposal_try.
  rewrite Htruthy, Hbody, Hfull. res_step.
  rewrite Hcontent. res_step. rewrite Htext. res_step.
  destruct (slice_drops_prose prose rest Hprose) as [Hfound ->].
  split; [|done]. by destruct (Z.eqb_spec (py_find (prose +:+ String "{" rest) "{") (-1)).
Qed.

End call_facts.

Lemma error_dict_message (a b : string) : error_dict a = error_dict b → a = b.
Proof.
  intros Heq.
  assert (py_item (error_dict a) "error" = py_item (error_dict b) "error")
    as Hitem by (by rewrite Heq).
  unfold error_dict, py_item in Hitem. rewrite !lookup_singleton_eq in Hitem.
  congruence.
Qed.

Section empty_body.
Context `{Json}.

Lemma analyze_details_empty_body (user_input : string) (model_response : pyval) :
  analyze_details_with_bedrock (BedrockBody "") user_input model_response
    = Ok (error_dict "Empty response from the model").
Proof. reflexivity. Qed.

Lemma generate_proposal_empty_body (user_input : string) :
  generate_proposal (BedrockBody "") user_input
    = Ok (error_dict "Empty or invalid response from the model").
Proof. reflexivity. Qed.

(** After "Confirm Details" the session is what the script stored before
    it called the model: the edited details and the combined response.  The
    two calls, whatever they return, add nothing to it. *)
Lemma confirm_calls_leave_session (E : env) (missing_keys : list string)
    (w : world) (draft provided : gmap string pyval) :
  unanswered missing_keys (collected_details (session w)) = [] →
  collected_details (session w) ≠ ∅ →
  response (session w) = PDict draft →
  provided_details_of draft = PDict provided →
  button_clicked E "Confirm Details" = true →
  let edited :=
    edit_details E (merge_details provided (collected_details (session w))) in
  ∃ w',
    collect_missing_details_interactive E missing_keys w = (Done (), w') ∧
    session w' =
      set_final_response
        (PDict (<["provided_details" := PDict provided]> draft))
        (set_collected_details edited (session w)).
Proof.
  intros Hun Hsome Hresp Hprov Hclick edited. apply truthy_dict in Hsome.
  unfold collect_missing_details_interactive. run_step.
  rewrite Hun, Hsome, Hresp. run_step. cbn [py_get].
  unfold provided_details_of in Hprov. rewrite Hprov.
  cbn [py_unpack_mapping]. run_step. rewrite Hclick.
  rewrite (combine_responses_mapping draft _ provided Hprov). run_step.
  fold edited.
  destruct (analyze_details_returns (bedrock E AnalyzeOnConfirm)
              (json_dumps (PDict edited)) (PDict draft)) as [analysis ->].
  destruct (generate_proposal_returns (bedrock E GenerateOnConfirm)
              (json_dumps (PDict edited))) as [proposal ->].
  eexists. split; reflexivity.
Qed.

(** C3, as the code has it: on an empty body the analysis returns exactly
    the error "Empty response from the model" and the proposal call exactly
    the error "Empty or invalid response from the model"; the script then
    only renders the error: the step after the Generate button and the tax
    path leave the session as it was, and after "Confirm Details" the
    session is what was stored before the two calls. *)
Theorem empty_body_is_reported :
  (∀ user_input model_response,
     analyze_details_with_bedrock (BedrockBody "") user_input model_response
       = Ok (error_dict "Empty response from the model")) ∧
  (∀ user_input,
     generate_proposal (BedrockBody "") user_input
       = Ok (error_dict "Empty or invalid response from the model")) ∧
  (∀ E user_input w,
     bedrock E GenerateOnClick = BedrockBody "" →
     ∃ w', generate_step E user_input w = (Done (), w') ∧
           session w' = session w) ∧
  (∀ E user_input draft w,
     bedrock E AnalyzeOnDisplay = BedrockBody "" →
     ∃ w', tax_path E user_input draft w = (Done (), w') ∧
           session w' = session w) ∧
  (∀ E missing_keys w draft provided,
     unanswered missing_keys (collected_details (session w)) = [] →
     collected_details (session w) ≠ ∅ →
     response (session w) = PDict draft →
     provided_details_of draft = PDict provided →
     button_clicked E "Confirm Details" = true →
     bedrock E AnalyzeOnConfirm = BedrockBody "" →
     bedrock E GenerateOnConfirm = BedrockBody "" →
     ∃ w',
       collect_missing_details_interactive E missing_keys w = (Done (), w') ∧
       session w' =
         set_final_response
           (PDict (<["provided_details" := PDict provided]> draft))
           (set_collected_details
              (edit_details E
                 (merge_details provided (collected_details (session w))))
              (session w))).
Proof.
  split_and!.
  - apply analyze_details_empty_body.
  - apply generate_proposal_empty_body.
  - intros E user_input w Hbody. unfold generate_step. run_step.
    destruct (button_clicked E "Generate Proposal"); [|by eexists].
    destruct (negb (all_space user_input)); [|by eexists].
    run_step. rewrite Hbody, generate_proposal_empty_body.
    unfold error_dict. cbn [py_contains_error py_item].
    rewrite lookup_singleton_eq.
    rewrite bool_decide_eq_true_2 by (by eexists). by eexists.
  - intros E user_input draft w Hbody. unfold tax_path. run_step.
    rewrite Hbody, analyze_details_empty_body.
    unfold error_dict. cbn [py_get py_item]. rewrite lookup_singleton_eq.
    simpl. by eexists.
  - intros E missing_keys w draft provided Hun Hsome Hresp Hprov Hclick _ _.
    by apply confirm_calls_leave_session.
Qed.

End empty_body.

Lemma empty_body_is_reported_witness :
  ∃ w',
    generate_step (sample_env "" true "") "Please prepare our tax filing"
      (World industry_answered []) = (Done (), w') ∧
    session w' = industry_answered.
Proof.
  destruct empty_body_is_reported as (_ & _ & Hstep & _).
  exact (Hstep (sample_env "" true "") "Please prepare our tax filing"
           (World industry_answered []) eq_refl).
Defined.

(** C3, as the claim has it, fails for the proposal call: on an empty body
    it returns an error with a message of its own. *)
Lemma generate_proposal_empty_body_message :
  generate_proposal (BedrockBody "") "Please prepare our tax filing"
    = Ok (error_dict "Empty or invalid response from the model") ∧
  error_dict "Empty or invalid response from the model"
    ≠ error_dict "Empty response from the model".
Proof.
  split; [reflexivity|]. intros Heq%error_dict_message. discriminate.
Qed.

(** ** The reference decoder *)

Lemma scan_members_dict (fuel : nat) (s : string) (pos : nat)
    (pairs : gmap string pyval) (value : pyval) (rest : string) (stop : nat) :
  scan_members fuel s pos pairs = Scanned value rest stop →
  ∃ d, value = PDict d.
Proof.
  revert s pos pairs. induction fuel as [|fuel IH]; intros s pos pairs; [done|].
  cbn [scan_members]. intros Hscan.
  repeat (case_match; try discriminate); simplify_eq; eauto.
Qed.

Lemma reference_decodes_objects : decodes_objects.
Proof.
  intros text value. cbn [json_loads json_reference]. unfold loads.
  change (skip_ws (String "{" text) 0) with (String "{" text, 0).
  cbv beta iota.
  set (fuel := 2 * String.length (String "{" text) + 2).
  assert (∃ n, fuel = S n) as [n ->] by (exists (2 * String.length (String "{" text) + 1); lia).
  cbn [scan_once].
  change (is_char dquote "{") with false. change (is_char 123 "{") with true.
  cbv iota. intros Hloads.
  repeat (case_match; try discriminate); simplify_eq; eauto using scan_members_dict.
Qed.

(** ** Leading prose *)

(** C2 at the scenario of the specification, with the reference decoder:
    the reply text "Sure! {...}" inside the service's body is decoded by the
    analysis from its first brace on, but the proposal call decodes the
    whole text and reports the decoder's failure. *)
Theorem leading_prose_breaks_generate_proposal :
  let reply := sample "Sure! {'Proposal Description':'...'}" in
  let body :=
    sample "{'content':[{'text':'Sure! {\'Proposal Description\':\'...\'}'}]}" in
  json_loads body
    = Ok (PDict {[ "content" := PList [PDict {[ "text" := PStr reply ]}] ]}) ∧
  analyze_details_with_bedrock (BedrockBody body) "" PNone
    = Ok (PDict {[ "Proposal Description" := PStr "..." ]}) ∧
  generate_proposal (BedrockBody body) ""
    = Ok (error_dict
            "Exception occurred: Expecting value: line 1 column 1 (char 0)").
Proof. vm_compute. by split_and!. Qed.

(** ** Results that are not dictionaries *)

(** C4 at a reply that is valid JSON but not an object, with the reference
    decoder: the proposal call returns the list itself, which is neither a
    dictionary nor an error. *)
Theorem generate_proposal_returns_a_list :
  let body := sample "{'content':[{'text':'[1]'}]}" in
  generate_proposal (BedrockBody body) "" = Ok (PList [PInt 1]).
Proof. vm_compute. reflexivity. Qed.

(** ** What holds of both calls *)

(** Whatever the boundary does, either call returns normally, with the
    result of its [try] block or with an error dictionary. *)
Theorem calls_never_raise `{Json} (b : boundary) (user_input : string)
    (model_response : pyval) :
  (∃ result,
     analyze_details_with_bedrock b user_input model_response = Ok result ∧
     (analyze_details_try b = Ok result ∨ ∃ msg, result = error_dict msg)) ∧
  (∃ result,
     generate_proposal b user_input = Ok result ∧
     (generate_proposal_try b = Ok result ∨ ∃ msg, result = error_dict msg)).
Proof.
  split; [apply analyze_details_result | apply generate_proposal_result].
Qed.

(** With a decoder that turns texts starting with a brace into
    dictionaries, the analysis returns a dictionary whatever the boundary
    does. *)
Theorem analysis_result_is_a_dictionary `{Json} (b : boundary)
    (user_input : string) (model_response : pyval) :
  decodes_objects →
  ∃ d, analyze_details_with_bedrock b user_input model_response = Ok (PDict d).
Proof. apply analyze_details_returns_dict. Qed.

Lemma analysis_result_is_a_dictionary_witness :
  ∃ d,
    analyze_details_with_bedrock
      (BedrockBody (sample "{'content':[{'text':'[1] and {'}]}")) "" PNone
      = Ok (PDict d).
Proof.
  exact (analysis_result_is_a_dictionary
           (BedrockBody (sample "{'content':[{'text':'[1] and {'}]}")) "" PNone
           reference_decodes_objects).
Defined.

(** For a reply that puts brace-free prose in front of an object, the
    analysis decodes the text from the first brace on and the proposal call
    decodes the whole text, with any decoder. *)
Theorem prose_before_the_object `{Json} (body prose rest : string)
    (full first : gmap string pyval) (others : list pyval) :
  all_space body = false →
  json_loads body = Ok (PDict full) →
  full !! "content" = Some (PList (PDict first :: others)) →
  first !! "text" = Some (PStr (prose +:+ String "{" rest)) →
  py_in "{" prose = false →
  analyze_details_try (BedrockBody body) = json_loads (String "{" rest) ∧
  generate_proposal_try (BedrockBody body)
    = json_loads (prose +:+ String "{" rest).
Proof. apply calls_on_prose. Qed.

Lemma prose_before_the_object_witness :
  analyze_details_try
    (BedrockBody
       (sample "{'content':[{'text':'Sure! {\'Proposal Description\':\'...\'}'}]}"))
  = json_loads (sample "{'Proposal Description':'...'}").
Proof.
  refine (proj1 (prose_before_the_object
            (sample "{'content':[{'text':'Sure! {\'Proposal Description\':\'...\'}'}]}")
            "Sure! " (sample "'Proposal Description':'...'}")
            {[ "content" :=
                 PList [PDict {[ "text" :=
                   PStr (sample "Sure! {'Proposal Description':'...'}") ]}] ]}
            {[ "text" := PStr (sample "Sure! {'Proposal Description':'...'}") ]}
            [] _ _ _ _ _)); vm_compute; reflexivity.
Defined.

(** ** A conversation *)

(** The two-field scenario of the specification: after the answers
    "Consulting" and "$500k" the transcript has the four entries in order,
    both answers are collected, and the next invocation renders the review
    form over exactly these two entries. *)
Theorem two_fields_reach_review :
  chat_history two_fields_conversation =
    [Chat "Bot" "Which industry does your business operate in?";
     Chat "User" "Consulting";
     Chat "Bot" "What is the approximate annual revenue of your business?";
     Chat "User" "$500k"] ∧
  collected_details two_fields_conversation =
    {[ "Industry" := PStr "Consulting"; "Annual Revenue" := PStr "$500k" ]} ∧
  collect_missing_details_interactive (sample_env "" false "") two_fields
    (World two_fields_conversation []) =
    (Done (),
     World two_fields_conversation
       [EvSubheader "Review Your Details";
        EvEditFields
          {[ "Industry" := PStr "Consulting";
             "Annual Revenue" := PStr "$500k" ]};
        EvButton "Confirm Details" "Confirm Details"]).
Proof. vm_compute. by split_and!. Qed.

(** ** Progress *)

Lemma unanswered_insert (missing_keys : list string)
    (collected : gmap string pyval) (key : string) (value : pyval) :
  unanswered missing_keys (<[key := value]> collected)
    = filter (fun k => k ≠ key) (unanswered missing_keys collected).
Proof.
  unfold unanswered. rewrite list_filter_filter. apply list_filter_iff.
  intros k. rewrite lookup_insert. case_decide as Hk.
  - subst k. split; [done | by intros [? ?]].
  - split; [by intros ? | by intros [? ?]].
Qed.

(** A non-empty answer to the pending question is stored under its field,
    logged, and followed by a rerun; the field is then no longer unanswered,
    so fewer fields are left to ask. *)
Theorem answer_leaves_fewer_questions `{Json} (E : env)
    (missing_keys : list string) (w : world) (key question : string) :
  head (unanswered missing_keys (collected_details (session w))) = Some key →
  REQUIRED_LEAD_DETAILS !! key = Some question →
  button_clicked E ("submit-" +:+ key) = true →
  text_input_value E ("text-" +:+ key) (PStr "") ≠ "" →
  ∃ w',
    collect_missing_details_interactive E missing_keys w = (RerunRequested, w') ∧
    collected_details (session w')
      = (<[key := PStr (text_input_value E ("text-" +:+ key) (PStr ""))]>
           (collected_details (session w))) ∧
    (key ∉ unanswered missing_keys (collected_details (session w'))) ∧
    (length (unanswered missing_keys (collected_details (session w')))
     < length (unanswered missing_keys (collected_details (session w)))).
Proof.
  intros Hhead Hq Hclick Hvalue.
  destruct (unanswered missing_keys (collected_details (session w)))
    as [|key' rest] eqn:Hun; [done|]. injection Hhead as ->.
  rewrite (collect_pending E missing_keys w key question rest Hun Hq).
  rewrite Hclick. cbn [truthy andb].
  apply String.eqb_neq in Hvalue. rewrite Hvalue. cbn [negb].
  eexists. split; [reflexivity|]. cbn [session].
  set (value := text_input_value E ("text-" +:+ key) (PStr "")).
  assert (collected_details
            (log_chat "User" value
               (set_collected_details
                  (<[key := PStr value]>
                     (collected_details (log_chat "Bot" question (session w))))
                  (log_chat "Bot" question (session w))))
          = <[key := PStr value]> (collected_details (session w))) as ->.
  { unfold log_chat. by repeat case_match. }
  split; [done|]. rewrite unanswered_insert, Hun. split.
  - intros [Hne _]%list_elem_of_filter. by apply Hne.
  - apply (length_filter_lt _ _ key); [left | by intros Hne; apply Hne].
Qed.

Lemma answer_leaves_fewer_questions_witness :
  ∃ w',
    collect_missing_details_interactive (sample_env "Consulting" true "")
      two_fields (World industry_pending []) = (RerunRequested, w') ∧
    collected_details (session w') = {[ "Industry" := PStr "Consulting" ]}.
Proof.
  assert (head (unanswered two_fields
                  (collected_details (session (World industry_pending []))))
          = Some "Industry") as Hhead by (vm_compute; reflexivity).
  assert (REQUIRED_LEAD_DETAILS !! "Industry" = Some industry_question)
    as Hq by (vm_compute; reflexivity).
  destruct (answer_leaves_fewer_questions (sample_env "Consulting" true "")
              two_fields (World industry_pending []) "Industry"
              industry_question Hhead Hq eq_refl ltac:(discriminate))
    as (w' & Hrun & Hstored & _).
  exists w'. split; [exact Hrun|]. rewrite Hstored. reflexivity.
Defined.

(* ===================================================================== *)
(** * What the script leaves alone *)
(* ===================================================================== *)

Section keeps.
Context (R : relation session_state) `{!PreOrder R}.

Lemma keeps_at_ret {A} (a : A) (w : world) : keeps_at R (mret a) w.
Proof. intros o w' [= <- <-]. reflexivity. Qed.

Lemma keeps_at_emit (e : event) (w : world) : keeps_at R (emit e) w.
Proof. intros o w' [= <- <-]. reflexivity. Qed.

Lemma keeps_at_lift {A} (r : res A) (w : world) : keeps_at R (lift r) w.
Proof. intros o w'. unfold lift. destruct r; intros [= <- <-]; reflexivity. Qed.

Lemma keeps_at_rerun {A} (w : world) : keeps_at R (@rerun A) w.
Proof. intros o w' [= <- <-]. reflexivity. Qed.

Lemma keeps_at_modify (f : session_state → session_state) (w : world) :
  R (session w) (f (session w)) → keeps_at R (modify_session f) w.
Proof. intros Hf o w' [= <- <-]. apply Hf. Qed.

Lemma keeps_at_bind {A B} (m : M A) (k : A → M B) (w : world) :
  keeps_at R m w →
  (∀ a w1, m w = (Done a, w1) → keeps_at R (k a) w1) →
  keeps_at R (m ≫= k) w.
Proof.
  intros Hm Hk o w'. unfold mbind, M_bind.
  destruct (m w) as [[a| |] w1] eqn:Hrun.
  - intros Hrest. etrans; [by eapply Hm | by eapply Hk].
  - intros [= <- <-]. by eapply Hm.
  - intros [= <- <-]. by eapply Hm.
Qed.

Lemma keeps_at_bind_get {B} (k : session_state → M B) (w : world) :
  keeps_at R (k (session w)) w → keeps_at R (get_session ≫= k) w.
Proof.
  intros Hk. apply keeps_at_bind.
  - intros o w' [= <- <-]. reflexivity.
  - by intros a w1 [= <- <-].
Qed.

Lemma keeps_at_bind_emit {B} (e : event) (k : unit → M B) (w : world) :
  keeps_at R (k ()) (World (session w) (rendered w ++ [e])) →
  keeps_at R (emit e ≫= k) w.
Proof.
  intros Hk. apply keeps_at_bind; [apply keeps_at_emit|].
  by intros [] w1 [= <-].
Qed.

Lemma keeps_at_bind_modify {B} (f : session_state → session_state)
    (k : unit → M B) (w : world) :
  R (session w) (f (session w)) →
  keeps_at R (k ()) (World (f (session w)) (rendered w)) →
  keeps_at R (modify_session f ≫= k) w.
Proof.
  intros Hf Hk. apply keeps_at_bind; [by apply keeps_at_modify|].
  by intros [] w1 [= <-].
Qed.

Lemma keeps_at_bind_lift {A B} (r : res A) (k : A → M B) (w : world) :
  (∀ a, r = Ok a → keeps_at R (k a) w) → keeps_at R (lift r ≫= k) w.
Proof.
  intros Hk. apply keeps_at_bind; [apply keeps_at_lift|].
  intros a w1. unfold lift. destruct r; intros [= <- <-]. by apply Hk.
Qed.

Lemma keeps_at_display_chats (h : list chat) (w : world) :
  keeps_at R (display_chats h) w.
Proof.
  intros o w'. rewrite display_chats_run. intros [= <- <-]. reflexivity.
Qed.

Lemma keeps_at_display_chat_history (w : world) :
  keeps_at R display_chat_history w.
Proof.
  unfold display_chat_history. apply keeps_at_bind_get.
  apply keeps_at_display_chats.
Qed.

End keeps.

(** One step through a script, for a goal [keeps_at R m w]. *)
Ltac keeps_step :=
  cbn [session rendered];
  lazymatch goal with
  | |- @keeps_at _ _ ?m _ =>
      lazymatch m with
      | @mbind _ _ _ _ _ get_session => apply keeps_at_bind_get; [apply _ | ]
      | @mbind _ _ _ _ _ (emit _) => apply keeps_at_bind_emit; [apply _ | ]
      | @mbind _ _ _ _ _ (modify_session _) =>
          apply keeps_at_bind_modify; [apply _ | | ]
      | @mbind _ _ _ _ _ (lift _) =>
          apply keeps_at_bind_lift; [apply _ | intros ? ? ]
      | @mret _ _ _ _ => apply keeps_at_ret; apply _
      | emit _ => apply keeps_at_emit; apply _
      | lift _ => apply keeps_at_lift; apply _
      | rerun => apply keeps_at_rerun; apply _
      | modify_session _ => apply keeps_at_modify
      | if ?c then _ else _ => destruct c eqn:?
      | match ?x with _ => _ end => destruct x eqn:?
      end
  end.

Lemma collection_frame_preorder : PreOrder collection_frame.
Proof.
  split.
  - intros s. by split_and!.
  - intros s1 s2 s3 (? & ? & ? & ? & ? & ?) (? & ? & ? & ? & ? & ?).
    split_and!; try congruence; by etrans.
Qed.
#[local] Existing Instance collection_frame_preorder.

Lemma session_grows_preorder : PreOrder session_grows.
Proof.
  split.
  - intros s. by split_and!.
  - intros s1 s2 s3 (? & ? & ? & ?) (? & ? & ? & ?).
    split_and!; [by etrans.. | auto].
Qed.
#[local] Existing Instance session_grows_preorder.

Lemma collection_frame_grows (s s' : session_state) :
  collection_frame s s' → session_grows s s'.
Proof. intros (? & ? & ? & ? & ? & ?). split_and!; [done.. | congruence]. Qed.

Lemma collection_frame_log_chat (who m : string) (s : session_state) :
  collection_frame s (log_chat who m s).
Proof.
  unfold log_chat. repeat case_match; split_and!; simpl; try done.
  - by apply prefix_app_r.
  - set_solver.
  - by apply prefix_app_r.
Qed.

Lemma edit_details_lookup (E : env) (details : gmap string pyval)
    (key : string) :
  edit_details E details !! key =
    (fun value => PStr (text_input_value E ("edit-" +:+ key) value))
      <$> details !! key.
Proof.
  unfold edit_details. rewrite map_lookup_imap.
  by destruct (details !! key).
Qed.

Lemma dom_edit_details (E : env) (details : gmap string pyval) :
  dom (edit_details E details) = dom details.
Proof.
  apply set_eq. intros key. rewrite !elem_of_dom, edit_details_lookup.
  by rewrite fmap_is_Some.
Qed.

Section collection_frame.
Context `{Json}.

Lemma collect_keeps_frame (E : env) (missing_keys : list string) :
  keeps collection_frame (collect_missing_details_interactive E missing_keys).
Proof.
  intros w. unfold collect_missing_details_interactive. cbv zeta.
  repeat keeps_step; try apply collection_frame_log_chat;
    try (split_and!; simpl; try done).
  - rewrite dom_edit_details. unfold merge_details. rewrite dom_union_L.
    set_solver.
  - rewrite dom_insert_L. set_solver.
Qed.

End collection_frame.

Lemma show_unchanged_preorder : PreOrder show_unchanged.
Proof.
  split; [by intros s|]. intros s1 s2 s3 H12 H23. unfold show_unchanged in *.
  congruence.
Qed.
#[local] Existing Instance show_unchanged_preorder.

Lemma keeps_at_weaken {A} (R R' : relation session_state) (m : M A) (w : world) :
  (∀ s s', R s s' → R' s s') → keeps_at R m w → keeps_at R' m w.
Proof. intros Himp Hm o w' Hrun. by eapply Himp, Hm. Qed.

Lemma py_update_dom (collected collected' : gmap string pyval) (obj : pyval) :
  py_update collected obj = Ok collected' → dom collected ⊆ dom collected'.
Proof.
  unfold py_update. intros Hup. repeat case_match; simplify_eq; try done.
  rewrite dom_union_L. set_solver.
Qed.

Section run_frame.
Context `{Json}.

(** Whatever the user does and however the invocation ends, the collection
    of details does not write the draft, the list of missing keys or the
    flag that shows the final response, and it only extends the
    transcript, the asked questions and the keys of the collected
    details. *)
Theorem collection_leaves_the_draft_alone (E : env) (missing_keys : list string)
    (w : world) :
  collection_frame (session w)
    (session (collect_missing_details_interactive E missing_keys w).2).
Proof.
  destruct (collect_missing_details_interactive E missing_keys w)
    as [o w'] eqn:Hrun.
  by eapply collect_keeps_frame.
Qed.

Lemma generate_step_grows (E : env) (user_input : string) (w : world) :
  keeps_at session_grows (generate_step E user_input) w.
Proof.
  unfold generate_step. repeat keeps_step. by split_and!.
Qed.

Lemma generate_step_show (E : env) (user_input : string) (w : world) :
  keeps_at show_unchanged (generate_step E user_input) w.
Proof. unfold generate_step. repeat keeps_step. done. Qed.

Lemma tax_path_grows (E : env) (user_input : string) (draft : pyval) (w : world) :
  keeps_at session_grows (tax_path E user_input draft) w.
Proof.
  unfold tax_path. repeat keeps_step.
  - by split_and!.
  - split_and!; simpl; try done. by eapply py_update_dom.
  - eapply keeps_at_weaken; [apply collection_frame_grows|].
    apply collect_keeps_frame.
Qed.

Lemma tax_path_show (E : env) (user_input : string) (draft : pyval) (w : world) :
  keeps_at show_unchanged (tax_path E user_input draft) w.
Proof.
  unfold tax_path. repeat keeps_step; try done.
  eapply keeps_at_weaken; [|apply collect_keeps_frame].
  by intros s s' (_ & _ & Hshow & _).
Qed.

Lemma final_step_keeps (R : relation session_state) `{!PreOrder R} (w : world) :
  keeps_at R final_step w.
Proof. unfold final_step. repeat keeps_step. Qed.

Lemma display_step_grows (E : env) (user_input : string) (w : world) :
  keeps_at session_grows (display_step E user_input) w.
Proof.
  unfold display_step. cbv zeta. keeps_step. keeps_step; [|keeps_step].
  keeps_step; [apply tax_path_grows|].
  repeat keeps_step; by split_and!.
Qed.

(** Over a whole run the transcript, the asked questions and the keys of
    the collected details only grow, and a final response that was shown
    stays shown. *)
Theorem run_only_adds (E : env) (s : session_state) :
  session_grows s (session (run E s).2).
Proof.
  unfold run. destruct (main E (World s [])) as [o w'] eqn:Hrun.
  change s with (session (World s [])) at 1. revert o w' Hrun.
  change (keeps_at session_grows (main E) (World s [])).
  unfold main. cbv zeta. do 3 keeps_step.
  apply keeps_at_bind; [apply _ | apply keeps_at_display_chat_history; apply _ |].
  intros [] w1 _.
  apply keeps_at_bind; [apply _ | apply generate_step_grows |].
  intros [] w2 _.
  apply keeps_at_bind; [apply _ | apply display_step_grows |].
  intros [] w3 _. apply final_step_keeps. apply _.
Qed.

(** On a tax-related request no part of the run writes the flag that shows
    the final response. *)
Theorem tax_run_never_shows_final (E : env) (s : session_state) :
  is_tax_related (text_area_value E) = true →
  show_final_response (session (run E s).2) = show_final_response s.
Proof.
  intros Htax. unfold run. destruct (main E (World s [])) as [o w'] eqn:Hrun.
  change s with (session (World s [])). revert o w' Hrun.
  change (keeps_at show_unchanged (main E) (World s [])).
  unfold main. cbv zeta. do 3 keeps_step.
  apply keeps_at_bind; [apply _ | apply keeps_at_display_chat_history; apply _ |].
  intros [] w1 _.
  apply keeps_at_bind; [apply _ | apply generate_step_show |].
  intros [] w2 _.
  apply keeps_at_bind; [apply _ | | intros [] w3 _; apply final_step_keeps; apply _].
  unfold display_step. cbv zeta. keeps_step. rewrite Htax.
  keeps_step; [apply tax_path_show | keeps_step].
Qed.

End run_frame.

(* ===================================================================== *)
(** * More about the transcript *)
(* ===================================================================== *)

Lemma log_all_history (calls : list (string * string)) (s0 : session_state) :
  ∃ added,
    chat_history (log_all calls s0) = chat_history s0 ++ added ∧
    added `sublist_of` chats calls ∧
    filter (fun c => sender c ≠ "Bot") added
      = chats (filter (fun call => call.1 ≠ "Bot") calls) ∧
    (∀ m, ("Bot", m) ∈ calls → m ∈ asked_questions (log_all calls s0)) ∧
    (∀ m, Chat "Bot" m ∈ added → ("Bot", m) ∈ calls) ∧
    asked_questions s0 ⊆ asked_questions (log_all calls s0).
Proof.
  revert s0. induction calls as [|[who m] calls IH]; intros s0.
  - exists []. simpl. rewrite app_nil_r. split_and!; try done.
    + intros m Hin. by apply elem_of_nil in Hin.
    + intros m Hin. by apply elem_of_nil in Hin.
  - cbn [log_all foldl]. change (foldl _ ?s calls) with (log_all calls s).
    cbn [fst snd].
    destruct (IH (log_chat who m s0))
      as (added & Hhist & Hsub & Hfilter & Hbot & Hadded & Hmono).
    destruct (decide (who = "Bot")) as [->|Hne].
    + assert (∀ m', ("Bot", m') ∈ ("Bot", m) :: calls →
                    m' ∈ asked_questions (log_all calls (log_chat "Bot" m s0)))
        as Hbot'.
      { intros m' [[= ->]|Hin]%elem_of_cons; [|by apply Hbot].
        apply Hmono, asked_log_chat_bot. }
      destruct (decide (m ∈ asked_questions s0)) as [Hin|Hnin].
      * rewrite log_chat_bot_asked in * by done. exists added. split_and!.
        -- done.
        -- by apply sublist_cons.
        -- rewrite filter_cons_False by (simpl; by intros []). done.
        -- done.
        -- intros m' Hm'. right. by apply Hadded.
        -- done.
      * assert (chat_history (log_chat "Bot" m s0)
                = chat_history s0 ++ [Chat "Bot" m]) as Hnew
          by (by rewrite log_chat_bot_new).
        rewrite Hnew in Hhist.
        exists (Chat "Bot" m :: added). split_and!.
        -- by rewrite Hhist, <- app_assoc.
        -- by apply sublist_skip.
        -- rewrite (filter_cons_False _ ("Bot", m)) by (simpl; by intros []).
           rewrite filter_cons_False by (simpl; by intros []). done.
        -- done.
        -- intros m' [[= ->]|Hm']%elem_of_cons; [left | right; by apply Hadded].
        -- intros x Hx. by apply Hmono, asked_log_chat_mono.
    + assert (chat_history (log_chat who m s0)
              = chat_history s0 ++ [Chat who m]) as Hnew
        by (by rewrite log_chat_other).
      rewrite Hnew in Hhist.
      exists (Chat who m :: added). split_and!.
      * by rewrite Hhist, <- app_assoc.
      * by apply sublist_skip.
      * rewrite (filter_cons_True _ (who, m)) by done.
        rewrite filter_cons_True by done. unfold chats. rewrite fmap_cons.
        by f_equal.
      * intros m' [Heq|Hin]%elem_of_cons; [|by apply Hbot].
        injection Heq as Hwho _. by destruct Hne.
      * intros m' [Heq|Hm']%elem_of_cons; [|right; by apply Hadded].
        injection Heq as Hwho _. by destruct Hne.
      * intros x Hx. by apply Hmono, asked_log_chat_mono.
Qed.

Lemma transcript_ok_size (s : session_state) :
  transcript_ok s →
  size (asked_questions s) = length (bot_messages (chat_history s)).
Proof.
  intros [Hnd Hasked].
  assert (asked_questions s = list_to_set (bot_messages (chat_history s))) as ->.
  { apply set_eq. intros m. by rewrite Hasked, elem_of_list_to_set. }
  by apply size_list_to_set.
Qed.

(** From the empty session, the transcript is the sequence of logged
    messages with some Bot messages left out: nothing is invented or
    reordered, every message of another sender is there, every Bot text
    that was logged is there, and [asked_questions] has exactly as many
    elements as the transcript has Bot entries. *)
Theorem transcript_follows_the_calls (calls : list (string * string)) :
  let s := log_all calls initial_session in
  chat_history s `sublist_of` chats calls ∧
  filter (fun c => sender c ≠ "Bot") (chat_history s)
    = chats (filter (fun call => call.1 ≠ "Bot") calls) ∧
  (∀ m, Chat "Bot" m ∈ chat_history s ↔ ("Bot", m) ∈ calls) ∧
  size (asked_questions s) = length (bot_messages (chat_history s)).
Proof.
  intros s.
  destruct (log_all_history calls initial_session)
    as (added & Hhist & Hsub & Hfilter & Hbot & Hadded & _).
  pose proof (transcript_ok_log_all calls initial_session transcript_ok_initial)
    as Hok.
  fold s in Hhist, Hbot, Hok. simpl in Hhist. rewrite Hhist.
  split_and!; [done | done | | by rewrite <- Hhist; apply transcript_ok_size].
  intros m. split; [apply Hadded|]. intros Hin.
  rewrite <- Hhist. apply elem_of_bot_messages. by apply Hok, Hbot.
Qed.

(* ===================================================================== *)
(** * More about the relevance gate *)
(* ===================================================================== *)

Lemma string_app_assoc (a b c : string) : (a +:+ b) +:+ c = a +:+ (b +:+ c).
Proof.
  induction a as [|x a IH]; [done|]. by rewrite !append_cons, IH.
Qed.

Lemma occurs_in_trans (a b c : string) :
  occurs_in a b → occurs_in b c → occurs_in a c.
Proof.
  intros (pre & post & ->) (pre' & post' & ->).
  exists (pre' +:+ pre), (post +:+ post'). by rewrite !string_app_assoc.
Qed.

Lemma lower_char_idemp (c : ascii) : lower_char (lower_char c) = lower_char c.
Proof. destruct c as [[] [] [] [] [] [] [] []]; vm_compute; reflexivity. Qed.

Lemma lower_idemp (s : string) : lower (lower s) = lower s.
Proof.
  induction s as [|c s IH]; [done|]. cbn [lower].
  by rewrite lower_char_idemp, IH.
Qed.

Lemma lower_app (a b : string) : lower (a +:+ b) = lower a +:+ lower b.
Proof.
  induction a as [|c a IH]; [done|].
  rewrite append_cons. cbn [lower]. by rewrite append_cons, IH.
Qed.

(** The gate comes down to two keywords: a text is tax-related exactly
    when its lower-cased form contains "tax" or "filing" (the other two
    keywords contain "tax"); the answer does not depend on the case of the
    letters, and text around a tax-related text keeps it tax-related. *)
Theorem tax_gate_two_keywords (text : string) :
  is_tax_related text = py_in "tax" (lower text) || py_in "filing" (lower text) ∧
  is_tax_related (lower text) = is_tax_related text ∧
  (∀ before after,
     is_tax_related text = true →
     is_tax_related (before +:+ text +:+ after) = true).
Proof.
  assert (∀ t, is_tax_related t
               = py_in "tax" (lower t) || py_in "filing" (lower t)) as Htwo.
  { intros t. unfold is_tax_related, TAX_KEYWORDS. cbn [existsb].
    destruct (py_in "tax" (lower t)) eqn:Htax; [done|].
    destruct (py_in "filing" (lower t)) eqn:Hfiling; [done|].
    assert (∀ keyword, occurs_in "tax" keyword →
                       py_in keyword (lower t) = false) as Hlong.
    { intros keyword Hin. apply not_true_is_false. intros Hk%py_in_spec.
      apply not_true_iff_false in Htax. apply Htax, py_in_spec.
      by eapply occurs_in_trans. }
    rewrite (Hlong "tax preparation") by (by exists "", " preparation").
    rewrite (Hlong "tax filing") by (by exists "", " filing"). done. }
  split_and!.
  - apply Htwo.
  - unfold is_tax_related. by rewrite lower_idemp.
  - intros before after. rewrite !is_tax_related_spec.
    intros (keyword & Hkw & pre & post & Hin). exists keyword. split; [done|].
    rewrite !lower_app, Hin.
    exists (lower before +:+ pre), (post +:+ lower after).
    by rewrite !string_app_assoc.
Qed.

(* ===================================================================== *)
(** * More about the combiner *)
(* ===================================================================== *)

(** [combine_responses] succeeds exactly on a dictionary whose
    [provided_details] is absent or a mapping; on anything that is not a
    dictionary it raises [AttributeError], on a dictionary with another
    [provided_details] it raises [TypeError]; and combining its result once
    more, with whatever details, gives the same result. *)
Theorem combine_responses_domain (model_response : pyval)
    (collected : gmap string pyval) :
  ((∃ combined, combine_responses model_response collected = Ok combined) ↔
   ∃ d provided,
     model_response = PDict d ∧ provided_details_of d = PDict provided) ∧
  ((∀ d, model_response ≠ PDict d) →
   ∃ msg, combine_responses model_response collected
          = Raise (Exn AttributeError msg)) ∧
  (∀ d,
     model_response = PDict d →
     (∀ provided, provided_details_of d ≠ PDict provided) →
     ∃ msg, combine_responses model_response collected
            = Raise (Exn TypeError msg)) ∧
  (∀ combined other,
     combine_responses model_response collected = Ok combined →
     combine_responses combined other = Ok combined).
Proof.
  split_and!.
  - split.
    + intros [combined Hrun]. destruct model_response as [| | | | | |d]; try done.
      exists d. unfold combine_responses, py_get in Hrun.
      cbn [mbind res_bind] in Hrun. fold (provided_details_of d) in Hrun.
      destruct (provided_details_of d) as [| | | | | |provided]; try done.
      by exists provided.
    + intros (d & provided & -> & Hprov). eexists.
      by apply combine_responses_mapping.
  - intros Hnot. destruct model_response as [| | | | | |d];
      try (by eexists). by destruct (Hnot d).
  - intros d -> Hnot. unfold combine_responses, py_get.
    cbn [mbind res_bind]. fold (provided_details_of d).
    destruct (provided_details_of d) as [| | | | | |provided];
      try (by eexists). by destruct (Hnot provided).
  - intros combined other Hrun.
    destruct model_response as [| | | | | |d]; try done.
    unfold combine_responses, py_get in Hrun. cbn [mbind res_bind] in Hrun.
    fold (provided_details_of d) in Hrun.
    destruct (provided_details_of d) as [| | | | | |provided] eqn:Hprov;
      try done.
    injection Hrun as <-.
    rewrite (combine_responses_mapping _ other provided).
    + by rewrite insert_insert_eq.
    + unfold provided_details_of. by rewrite lookup_insert_eq.
Qed.

(* ===================================================================== *)
(** * How failures of the model are reported *)
(* ===================================================================== *)

Lemma find_index_none (sub s : string) :
  py_in sub s = false → find_index sub s = None.
Proof.
  induction s as [|c s IH]; cbn [py_in find_index].
  - rewrite orb_false_r. by intros ->.
  - intros [-> Htail]%orb_false_iff. by rewrite IH.
Qed.

Lemma py_find_none (sub s : string) :
  py_in sub s = false → py_find s sub = (-1)%Z.
Proof. intros Hin. unfold py_find. by rewrite find_index_none. Qed.

Lemma truthy_not_all_space (body : string) :
  all_space body = false → truthy (PStr body) = true.
Proof. by destruct body. Qed.

Section failures.
Context `{Json}.

(** An exception at the boundary, and a body that the decoder rejects, both
    come back as an error dictionary that carries the exception's message:
    from the analysis with the prefix "JSON parsing error: " for a
    [JSONDecodeError] and "Exception occurred: " otherwise, from the
    proposal call always with "Exception occurred: ". *)
Theorem failures_become_error_values (e : exn) (body user_input : string)
    (model_response : pyval) :
  all_space body = false →
  json_loads body = Raise e →
  analyze_details_with_bedrock (BedrockBody body) user_input model_response
    = Ok (error_dict (analysis_prefix e +:+ exn_msg e)) ∧
  generate_proposal (BedrockBody body) user_input
    = Ok (error_dict ("Exception occurred: " +:+ exn_msg e)) ∧
  analyze_details_with_bedrock (BedrockRaises e) user_input model_response
    = Ok (error_dict (analysis_prefix e +:+ exn_msg e)) ∧
  generate_proposal (BedrockRaises e) user_input
    = Ok (error_dict ("Exception occurred: " +:+ exn_msg e)).
Proof.
  intros Hbody Hloads. pose proof (truthy_not_all_space body Hbody) as Htruthy.
  unfold analyze_details_with_bedrock, generate_proposal, analyze_details_try,
    generate_proposal_try, analysis_prefix.
  rewrite Htruthy, Hbody, Hloads. cbn [negb orb mbind res_bind].
  split_and!; by destruct (exn_cls e).
Qed.

(** A reply text without an opening brace, or a first content entry without
    a text, makes the analysis return exactly the error "No JSON object
    found in model response". *)
Theorem reply_without_object (body user_input text : string)
    (model_response : pyval) (full first : gmap string pyval)
    (others : list pyval) :
  body ≠ "" →
  json_loads body = Ok (PDict full) →
  full !! "content" = Some (PList (PDict first :: others)) →
  default (PStr "") (first !! "text") = PStr text →
  py_in "{" text = false →
  analyze_details_with_bedrock (BedrockBody body) user_input model_response
    = Ok (error_dict "No JSON object found in model response").
Proof.
  intros Hbody Hloads Hcontent Htext Hnone.
  assert (truthy (PStr body) = true) as Htruthy by (by destruct body).
  unfold analyze_details_with_bedrock, analyze_details_try.
  rewrite Htruthy, Hloads. res_step. rewrite Hcontent. res_step.
  change (from_option id (PStr "") (first !! "text"))
    with (default (PStr "") (first !! "text")).
  rewrite Htext. res_step. by rewrite py_find_none.
Qed.

(** A decoded body without usable content: when the key "content" is
    absent the analysis reports "list index out of range" and the proposal
    call "'NoneType' object is not subscriptable"; when the content list is
    empty both report "list index out of range"; when the first entry has
    no "text" the proposal call reports the missing key. *)
Theorem missing_content_is_reported (body user_input : string)
    (model_response : pyval) (full : gmap string pyval) :
  all_space body = false →
  json_loads body = Ok (PDict full) →
  (full !! "content" = None →
   analyze_details_with_bedrock (BedrockBody body) user_input model_response
     = Ok (error_dict "Exception occurred: list index out of range") ∧
   generate_proposal (BedrockBody body) user_input
     = Ok (error_dict
             "Exception occurred: 'NoneType' object is not subscriptable")) ∧
  (full !! "content" = Some (PList []) →
   analyze_details_with_bedrock (BedrockBody body) user_input model_response
     = Ok (error_dict "Exception occurred: list index out of range") ∧
   generate_proposal (BedrockBody body) user_input
     = Ok (error_dict "Exception occurred: list index out of range")) ∧
  (∀ first others,
     full !! "content" = Some (PList (PDict first :: others)) →
     first !! "text" = None →
     generate_proposal (BedrockBody body) user_input
       = Ok (error_dict "Exception occurred: 'text'")).
Proof.
  intros Hbody Hloads. pose proof (truthy_not_all_space body Hbody) as Htruthy.
  unfold analyze_details_with_bedrock, generate_proposal, analyze_details_try,
    generate_proposal_try.
  rewrite Htruthy, Hbody, Hloads. res_step.
  split_and!.
  - intros ->. by res_step.
  - intros ->. by res_step.
  - intros first others -> Htext. res_step. by rewrite Htext.
Qed.

End failures.

Lemma failures_become_error_values_witness :
  generate_proposal (BedrockBody "The proposal follows.") "" =
    Ok (error_dict
          "Exception occurred: Expecting value: line 1 column 1 (char 0)").
Proof.
  assert (json_loads "The proposal follows."
          = Raise (Exn JSONDecodeError
                     "Expecting value: line 1 column 1 (char 0)"))
    as Hloads by (vm_compute; reflexivity).
  exact (proj1 (proj2 (failures_become_error_values _ "The proposal follows."
                         "" PNone eq_refl Hloads))).
Defined.

Lemma reply_without_object_witness :
  analyze_details_with_bedrock
    (BedrockBody (sample "{'content':[{'text':'I cannot help with that.'}]}"))
    "" PNone
  = Ok (error_dict "No JSON object found in model response").
Proof.
  assert (json_loads (sample "{'content':[{'text':'I cannot help with that.'}]}")
          = Ok (PDict {[ "content" :=
                  PList [PDict {[ "text" := PStr "I cannot help with that." ]}] ]}))
    as Hloads by (vm_compute; reflexivity).
  refine (reply_without_object _ "" "I cannot help with that." PNone _
            {[ "text" := PStr "I cannot help with that." ]} [] _ Hloads _ _ _).
  - vm_compute. discriminate.
  - vm_compute. reflexivity.
  - vm_compute. reflexivity.
  - vm_compute. reflexivity.
Defined.

Lemma missing_content_is_reported_witness :
  generate_proposal (BedrockBody (sample "{'message':'throttled'}")) ""
  = Ok (error_dict "Exception occurred: 'NoneType' object is not subscriptable").
Proof.
  assert (json_loads (sample "{'message':'throttled'}")
          = Ok (PDict {[ "message" := PStr "throttled" ]}))
    as Hloads by (vm_compute; reflexivity).
  destruct (missing_content_is_reported (sample "{'message':'throttled'}") ""
              PNone _ ltac:(vm_compute; reflexivity) Hloads) as (Habsent & _).
  apply Habsent. vm_compute. reflexivity.
Defined.

(* ===================================================================== *)
(** * What a piece of the script renders *)
(* ===================================================================== *)

Section renders.
Context (P : event → Prop).

Lemma renders_done {A} (o : outcome A) (w : world) :
  renders_only P (fun w => (o, w)) w.
Proof. intros o' w' [= <- <-]. exists []. by rewrite app_nil_r. Qed.

Lemma renders_ret {A} (a : A) (w : world) : renders_only P (mret a) w.
Proof. apply renders_done. Qed.

Lemma renders_rerun {A} (w : world) : renders_only P (@rerun A) w.
Proof. apply renders_done. Qed.

Lemma renders_lift {A} (r : res A) (w : world) : renders_only P (lift r) w.
Proof. unfold lift. destruct r; apply renders_done. Qed.

Lemma renders_modify (f : session_state → session_state) (w : world) :
  renders_only P (modify_session f) w.
Proof. intros o w' [= <- <-]. exists []. by rewrite app_nil_r. Qed.

Lemma renders_emit (e : event) (w : world) : P e → renders_only P (emit e) w.
Proof. intros He o w' [= <- <-]. exists [e]. split; [done|]. by constructor. Qed.

Lemma renders_bind {A B} (m : M A) (k : A → M B) (w : world) :
  renders_only P m w →
  (∀ a w1, m w = (Done a, w1) → renders_only P (k a) w1) →
  renders_only P (m ≫= k) w.
Proof.
  intros Hm Hk o w'. unfold mbind, M_bind.
  destruct (m w) as [[a| |] w1] eqn:Hrun.
  - intros Hrest. destruct (Hm _ _ Hrun) as (added1 & Heq1 & Hadded1).
    destruct (Hk a w1 eq_refl _ _ Hrest) as (added2 & Heq2 & Hadded2).
    exists (added1 ++ added2). rewrite Heq2, Heq1, app_assoc. split; [done|].
    by apply Forall_app.
  - intros [= <- <-]. by eapply Hm.
  - intros [= <- <-]. by eapply Hm.
Qed.

Lemma renders_bind_get {B} (k : session_state → M B) (w : world) :
  renders_only P (k (session w)) w → renders_only P (get_session ≫= k) w.
Proof.
  intros Hk. apply renders_bind; [apply renders_done|].
  by intros a w1 [= <- <-].
Qed.

Lemma renders_bind_emit {B} (e : event) (k : unit → M B) (w : world) :
  P e →
  renders_only P (k ()) (World (session w) (rendered w ++ [e])) →
  renders_only P (emit e ≫= k) w.
Proof.
  intros He Hk. apply renders_bind; [by apply renders_emit|].
  by intros [] w1 [= <-].
Qed.

Lemma renders_bind_modify {B} (f : session_state → session_state)
    (k : unit → M B) (w : world) :
  renders_only P (k ()) (World (f (session w)) (rendered w)) →
  renders_only P (modify_session f ≫= k) w.
Proof.
  intros Hk. apply renders_bind; [apply renders_modify|].
  by intros [] w1 [= <-].
Qed.

Lemma renders_bind_lift {A B} (r : res A) (k : A → M B) (w : world) :
  (∀ a, r = Ok a → renders_only P (k a) w) → renders_only P (lift r ≫= k) w.
Proof.
  intros Hk. apply renders_bind; [apply renders_lift|].
  intros a w1. unfold lift. destruct r; intros [= <- <-]. by apply Hk.
Qed.

Lemma renders_display_chat_history (w : world) :
  (∀ body, P (EvMarkdown body)) → renders_only P display_chat_history w.
Proof.
  intros Hmd o w'. unfold display_chat_history. run_step.
  rewrite display_chats_run. intros [= <- <-]. eexists. split; [done|].
  unfold chat_markdowns. apply Forall_fmap, Forall_true. intros c. apply Hmd.
Qed.

End renders.

(** One step through a script, for a goal [renders_only P m w]. *)
Ltac renders_step :=
  cbn [session rendered];
  lazymatch goal with
  | |- @renders_only _ _ ?m _ =>
      lazymatch m with
      | @mbind _ _ _ _ _ get_session => apply renders_bind_get
      | @mbind _ _ _ _ _ (emit _) => apply renders_bind_emit
      | @mbind _ _ _ _ _ (modify_session _) => apply renders_bind_modify
      | @mbind _ _ _ _ _ (lift _) => apply renders_bind_lift; intros ? ?
      | @mret _ _ _ _ => apply renders_ret
      | emit _ => apply renders_emit
      | lift _ => apply renders_lift
      | rerun => apply renders_rerun
      | modify_session _ => apply renders_modify
      | if ?c then _ else _ => destruct c eqn:?
      | match ?x with _ => _ end => destruct x eqn:?
      end
  end.

Lemma unanswered_nil_collected (missing_keys : list string)
    (collected : gmap string pyval) :
  missing_keys ≠ [] → unanswered missing_keys collected = [] →
  truthy (PDict collected) = true.
Proof.
  intros Hsome Hnone. apply truthy_dict. intros ->.
  destruct missing_keys as [|key rest]; [done|].
  unfold unanswered in Hnone. by rewrite filter_cons_True in Hnone.
Qed.

(** The final response is left as it was. *)
Lemma final_unchanged_preorder :
  PreOrder (fun s s' : session_state => final_response s' = final_response s).
Proof. split; [done|]. intros s1 s2 s3. congruence. Qed.

Section unconfirmed.
Context `{Json}.

(** The review form is read-only until it is confirmed: with nothing left
    to ask and something collected, an invocation without a click on
    "Confirm Details" leaves the session exactly as it was, whatever was
    typed into the fields and whatever the draft looks like. *)
Theorem review_is_read_only (E : env) (missing_keys : list string) (w : world) :
  unanswered missing_keys (collected_details (session w)) = [] →
  collected_details (session w) ≠ ∅ →
  button_clicked E "Confirm Details" = false →
  session (collect_missing_details_interactive E missing_keys w).2 = session w.
Proof.
  intros Hun Hsome%truthy_dict Hclick.
  destruct (collect_missing_details_interactive E missing_keys w)
    as [o w'] eqn:Hrun. cbn [snd]. symmetry. revert o w' Hrun.
  change (keeps_at eq (collect_missing_details_interactive E missing_keys) w).
  unfold collect_missing_details_interactive. cbv zeta.
  repeat keeps_step; congruence.
Qed.

(** With a non-empty list of missing keys, an invocation never takes the
    branch "All questions answered!", calls the model only after a click on
    "Confirm Details", and without that click leaves the final response as
    it was. *)
Theorem nothing_final_without_confirmation (E : env)
    (missing_keys : list string) (w : world) :
  missing_keys ≠ [] →
  let w' := (collect_missing_details_interactive E missing_keys w).2 in
  (∃ added,
     rendered w' = rendered w ++ added ∧
     (EvSuccess "All questions answered!" ∉ added) ∧
     (button_clicked E "Confirm Details" = false →
      ∀ site, EvInvoke site ∉ added)) ∧
  (button_clicked E "Confirm Details" = false →
   final_response (session w') = final_response (session w)).
Proof.
  intros Hsome w'. subst w'.
  destruct (collect_missing_details_interactive E missing_keys w)
    as [o w'] eqn:Hrun. cbn [snd]. split.
  - assert (renders_only
              (fun e => e ≠ EvSuccess "All questions answered!" ∧
                        (button_clicked E "Confirm Details" = false →
                         ∀ site, e ≠ EvInvoke site))
              (collect_missing_details_interactive E missing_keys) w) as Hr.
    { unfold collect_missing_details_interactive. cbv zeta.
      repeat renders_step; try (split; [done|]; by intros _ ?);
        try (split; [done|]; congruence).
      pose proof (unanswered_nil_collected _ _ Hsome Heql). congruence. }
    destruct (Hr _ _ Hrun) as (added & Heq & Hall). exists added.
    rewrite Forall_forall in Hall. split_and!; [done | |].
    + intros Hin. by destruct (Hall _ Hin).
    + intros Hclick site Hin. destruct (Hall _ Hin) as [_ Hno].
      by apply (Hno Hclick site).
  - intros Hclick. revert o w' Hrun.
    change (keeps_at (fun s s' => final_response s' = final_response s)
              (collect_missing_details_interactive E missing_keys) w).
    pose proof final_unchanged_preorder as Hpre.
    unfold collect_missing_details_interactive. cbv zeta.
    repeat keeps_step; try done; try congruence.
    + pose proof (unanswered_nil_collected _ _ Hsome Heql). congruence.
    + unfold log_chat. by repeat case_match.
Qed.

End unconfirmed.

Lemma review_is_read_only_witness :
  session (collect_missing_details_interactive (sample_env "Retail" false "")
             ["Industry"] (World review_session [])).2 = review_session.
Proof.
  assert (unanswered ["Industry"]
            (collected_details (session (World review_session []))) = [])
    as Hnone by (vm_compute; reflexivity).
  assert (collected_details (session (World review_session [])) ≠ ∅)
    as Hsome by (apply truthy_dict; vm_compute; reflexivity).
  exact (review_is_read_only (sample_env "Retail" false "") ["Industry"]
           (World review_session []) Hnone Hsome eq_refl).
Defined.

Lemma nothing_final_without_confirmation_witness :
  final_response
    (session (collect_missing_details_interactive (sample_env "Retail" false "")
                ["Industry"] (World review_session [])).2)
  = final_response review_session.
Proof.
  assert (["Industry"] ≠ @nil string) as Hsome by discriminate.
  exact (proj2 (nothing_final_without_confirmation (sample_env "Retail" false "")
                  ["Industry"] (World review_session []) Hsome) eq_refl).
Defined.

(* ===================================================================== *)
(** * Rendering again, confirming, answering everything *)
(* ===================================================================== *)

Lemma collected_log_chat (who m : string) (s : session_state) :
  collected_details (log_chat who m s) = collected_details s.
Proof. unfold log_chat. by repeat case_match. Qed.

Lemma log_chat_bot_twice (m : string) (s : session_state) :
  log_chat "Bot" m (log_chat "Bot" m s) = log_chat "Bot" m s.
Proof. apply log_chat_bot_asked, asked_log_chat_bot. Qed.

Section more_collecting.
Context `{Json}.

Lemma collect_unknown_field (E : env) (missing_keys : list string) (w : world)
    (key : string) (rest : list string) :
  unanswered missing_keys (collected_details (session w)) = key :: rest →
  REQUIRED_LEAD_DETAILS !! key = None →
  collect_missing_details_interactive E missing_keys w
    = (Raised (Exn KeyError ("'" +:+ key +:+ "'")), w).
Proof.
  intros Hun Hq. unfold collect_missing_details_interactive. run_step.
  rewrite Hun. unfold registry_question. rewrite Hq. by destruct w.
Qed.

Lemma collect_review_unconfirmed (E : env) (missing_keys : list string)
    (w : world) :
  unanswered missing_keys (collected_details (session w)) = [] →
  truthy (PDict (collected_details (session w))) = true →
  button_clicked E "Confirm Details" = false →
  session (collect_missing_details_interactive E missing_keys w).2 = session w.
Proof.
  intros Hun Hsome Hclick.
  destruct (collect_missing_details_interactive E missing_keys w)
    as [o w'] eqn:Hrun. cbn [snd]. symmetry. revert o w' Hrun.
  change (keeps_at eq (collect_missing_details_interactive E missing_keys) w).
  unfold collect_missing_details_interactive. cbv zeta.
  repeat keeps_step; congruence.
Qed.

Lemma collect_all_answered (E : env) (missing_keys : list string) (w : world) :
  unanswered missing_keys (collected_details (session w)) = [] →
  truthy (PDict (collected_details (session w))) = false →
  collect_missing_details_interactive E missing_keys w =
    match combine_responses (response (session w))
            (collected_details (session w)) with
    | Ok final =>
        (Done (),
         World (set_final_response final (session w))
               (rendered w ++ [EvSuccess "All questions answered!"]))
    | Raise e =>
        (Raised e,
         World (session w) (rendered w ++ [EvSuccess "All questions answered!"]))
    end.
Proof.
  intros Hun Hnone. unfold collect_missing_details_interactive. run_step.
  rewrite Hun, Hnone. run_step.
  by destruct (combine_responses _ _).
Qed.

(** Reruns are harmless: when no button is clicked, a second invocation
    leaves the session of the first as it is; in particular the pending
    question is not logged twice. *)
Theorem rendering_again_changes_nothing (E : env) (missing_keys : list string)
    (w : world) (shown : list event) :
  (∀ key, button_clicked E key = false) →
  let s1 := session (collect_missing_details_interactive E missing_keys w).2 in
  session (collect_missing_details_interactive E missing_keys (World s1 shown)).2
    = s1.
Proof.
  intros Hclick s1. subst s1.
  destruct (unanswered missing_keys (collected_details (session w)))
    as [|key rest] eqn:Hun.
  - destruct (truthy (PDict (collected_details (session w)))) eqn:Hsome.
    + rewrite (collect_review_unconfirmed E missing_keys w) by done.
      by rewrite collect_review_unconfirmed.
    + rewrite (collect_all_answered E missing_keys w Hun Hsome).
      destruct (combine_responses (response (session w))
                  (collected_details (session w))) as [final|e] eqn:Hcombine.
      * cbn [snd session]. rewrite collect_all_answered by done.
        cbn [session response collected_details set_final_response].
        by rewrite Hcombine.
      * cbn [snd session]. rewrite collect_all_answered by done.
        cbn [session]. by rewrite Hcombine.
  - destruct (REQUIRED_LEAD_DETAILS !! key) as [question|] eqn:Hq.
    + rewrite (collect_pending E missing_keys w key question rest Hun Hq).
      rewrite Hclick. cbn [andb snd session].
      rewrite (collect_pending E missing_keys _ key question rest)
        by (cbn [session]; by rewrite ?collected_log_chat).
      rewrite Hclick. cbn [andb snd session]. apply log_chat_bot_twice.
    + rewrite (collect_unknown_field E missing_keys w key rest Hun Hq).
      cbn [snd]. by rewrite (collect_unknown_field E missing_keys _ key rest).
Qed.


Lemma collect_answer_collected (E : env) (missing_keys : list string)
    (s : session_state) (key question : string) (rest : list string) :
  unanswered missing_keys (collected_details s) = key :: rest →
  REQUIRED_LEAD_DETAILS !! key = Some question →
  button_clicked E ("submit-" +:+ key) = true →
  answer_to E key ≠ "" →
  collected_details
    (session_after
       (collect_missing_details_interactive E missing_keys (World s [])))
  = <[key := PStr (answer_to E key)]> (collected_details s).
Proof.
  intros Hun Hq Hclick Hvalue. unfold session_after.
  rewrite (collect_pending E missing_keys (World s []) key question rest Hun Hq).
  rewrite Hclick. cbn [truthy andb]. fold (answer_to E key).
  apply String.eqb_neq in Hvalue. rewrite Hvalue. cbn [negb snd session].
  by rewrite !collected_log_chat.
Qed.

(** Answering terminates: when every missing key has a registry entry and
    every answer is non-empty, as many invocations as there are unanswered
    fields leave no field unanswered; every missing key is then collected,
    each formerly unanswered one with the answer given for it, and what
    was collected before is still there. *)
Theorem answering_every_question_terminates (n : nat) (E : env)
    (missing_keys : list string) (s : session_state) :
  (∀ key, key ∈ missing_keys → is_Some (REQUIRED_LEAD_DETAILS !! key)) →
  (∀ key, button_clicked E ("submit-" +:+ key) = true) →
  (∀ key, answer_to E key ≠ "") →
  (length (unanswered missing_keys (collected_details s)) ≤ n)%nat →
  let s' := answer_all n E missing_keys s in
  unanswered missing_keys (collected_details s') = [] ∧
  (∀ key, key ∈ missing_keys → is_Some (collected_details s' !! key)) ∧
  collected_details s ⊆ collected_details s' ∧
  (∀ key,
     key ∈ unanswered missing_keys (collected_details s) →
     collected_details s' !! key = Some (PStr (answer_to E key))).
Proof.
  intros Hreg Hclick Hanswer. revert s.
  assert (∀ c : gmap string pyval,
            unanswered missing_keys c = [] →
            ∀ key, key ∈ missing_keys → is_Some (c !! key)) as Hall.
  { intros c Hnone key Hkey. destruct (c !! key) eqn:Hc; [by eexists|].
    assert (key ∈ unanswered missing_keys c) as Hin
      by (by apply list_elem_of_filter).
    rewrite Hnone in Hin. by apply elem_of_nil in Hin. }
  induction n as [|n IH]; intros s Hlen s'; subst s'.
  - destruct (unanswered missing_keys (collected_details s)) eqn:Hun;
      [|simpl in Hlen; lia].
    cbn [answer_all]. rewrite Hun. split_and!; [done | by apply Hall | done |].
    intros key Hin. by apply elem_of_nil in Hin.
  - cbn [answer_all].
    destruct (unanswered missing_keys (collected_details s))
      as [|key rest] eqn:Hun.
    + split_and!; [done | by apply Hall | done |].
      intros key Hin. by apply elem_of_nil in Hin.
    + assert (key ∈ missing_keys) as Hkey.
      { assert (key ∈ unanswered missing_keys (collected_details s)) as Hin
          by (rewrite Hun; left).
        by apply list_elem_of_filter in Hin as [_ ?]. }
      assert (collected_details s !! key = None) as Hfresh.
      { assert (key ∈ unanswered missing_keys (collected_details s)) as Hin
          by (rewrite Hun; left).
        by apply list_elem_of_filter in Hin as [? _]. }
      destruct (Hreg key Hkey) as [question Hq].
      set (s1 := session_after
                   (collect_missing_details_interactive E missing_keys
                      (World s []))).
      assert (collected_details s1
              = <[key := PStr (answer_to E key)]> (collected_details s)) as Hs1
        by (by eapply collect_answer_collected).
      assert (unanswered missing_keys (collected_details s1)
              = filter (fun k => k ≠ key) rest) as Hun1.
      { rewrite Hs1, unanswered_insert, Hun.
        by rewrite filter_cons_False by (by intros ?). }
      destruct (IH s1) as (Hnone & Hcollected & Hsub & Hvalues).
      { rewrite Hun1. pose proof (length_filter (fun k => k ≠ key) rest).
        simpl in Hlen. lia. }
      assert (collected_details s ⊆ collected_details s1) as Hstep
        by (rewrite Hs1; by apply insert_subseteq).
      split_and!; [done | done | by etrans |].
      intros key' Hin. destruct (decide (key' = key)) as [->|Hne].
      * eapply lookup_weaken; [|exact Hsub]. rewrite Hs1.
        apply lookup_insert_eq.
      * apply Hvalues. rewrite Hun1. apply list_elem_of_filter. split; [done|].
        by apply elem_of_cons in Hin as [?|?].
Qed.

End more_collecting.

Lemma rendering_again_changes_nothing_witness :
  session (collect_missing_details_interactive (sample_env "" false "")
             two_fields (World industry_pending [])).2 = industry_pending.
Proof.
  assert (session (collect_missing_details_interactive (sample_env "" false "")
                     two_fields (World initial_session [])).2
          = industry_pending) as Hfirst by (vm_compute; reflexivity).
  pose proof (rendering_again_changes_nothing (sample_env "" false "")
                two_fields (World initial_session []) []
                (fun _ => eq_refl)) as Hagain.
  cbv zeta in Hagain. rewrite Hfirst in Hagain. exact Hagain.
Defined.


Lemma answering_every_question_terminates_witness :
  unanswered two_fields
    (collected_details
       (answer_all 2 (sample_env "Consulting" true "") two_fields
          initial_session)) = [].
Proof.
  assert (∀ key, key ∈ two_fields → is_Some (REQUIRED_LEAD_DETAILS !! key))
    as Hreg.
  { intros key Hkey. unfold two_fields in Hkey.
    repeat (apply elem_of_cons in Hkey as [->|Hkey]);
      [by eexists | by eexists | by apply elem_of_nil in Hkey]. }
  assert (length (unanswered two_fields (collected_details initial_session))
          ≤ 2)%nat as Hlen by (vm_compute; lia).
  exact (proj1 (answering_every_question_terminates 2
                  (sample_env "Consulting" true "") two_fields initial_session
                  Hreg (fun _ => eq_refl) (fun _ => ltac:(discriminate)) Hlen)).
Defined.

(* ===================================================================== *)
(** * The registry *)
(* ===================================================================== *)

(** No two required fields share a question, so the de-duplication of Bot
    messages by their text cannot take the question of one field for the
    question of another. *)
Theorem registry_questions_are_distinct (key1 key2 question : string) :
  REQUIRED_LEAD_DETAILS !! key1 = Some question →
  REQUIRED_LEAD_DETAILS !! key2 = Some question →
  key1 = key2.
Proof.
  unfold REQUIRED_LEAD_DETAILS.
  intros Hin1%elem_of_list_to_map_2 Hin2%elem_of_list_to_map_2.
  repeat (apply elem_of_cons in Hin1 as [Hin1|Hin1]);
    [injection Hin1 as -> ->.. | by apply elem_of_nil in Hin1];
    repeat (apply elem_of_cons in Hin2 as [Hin2|Hin2]);
    try (by apply elem_of_nil in Hin2);
    by injection Hin2 as ->.
Qed.

Lemma registry_questions_are_distinct_witness :
  REQUIRED_LEAD_DETAILS !! "Industry" = Some industry_question ∧
  "Industry" = "Industry".
Proof.
  assert (REQUIRED_LEAD_DETAILS !! "Industry" = Some industry_question)
    as Hq by (vm_compute; reflexivity).
  split; [exact Hq|].
  exact (registry_questions_are_distinct "Industry" "Industry"
           industry_question Hq Hq).
Defined.

(* ===================================================================== *)
(** * The steps of a run *)
(* ===================================================================== *)

Lemma py_field_names_strings (keys : list string) :
  py_field_names (PStr <$> keys) = Ok keys.
Proof.
  induction keys as [|key keys IH]; [done|].
  rewrite fmap_cons. cbn [py_field_names]. rewrite IH. reflexivity.
Qed.

Section steps.
Context `{Json}.

(** The Generate button: without a click, or with requirements that are
    empty or white space only, no model is called and the session stays as
    it is; a result with an "error" key is rendered as an error and the
    draft held so far is kept; any other dictionary, the empty one
    included, replaces the draft and nothing else. *)
Theorem generate_step_cases (E : env) (user_input : string) (w : world) :
  let button := EvButton "Generate Proposal" "Generate Proposal" in
  (button_clicked E "Generate Proposal" = false ∨ all_space user_input = true →
   generate_step E user_input w
     = (Done (), World (session w) (rendered w ++ [button]))) ∧
  (∀ result,
     button_clicked E "Generate Proposal" = true →
     all_space user_input = false →
     generate_proposal (bedrock E GenerateOnClick) user_input
       = Ok (PDict result) →
     generate_step E user_input w =
       match result !! "error" with
       | Some detail =>
           (Done (),
            World (session w)
                  (rendered w ++
                   [button; EvInvoke GenerateOnClick; EvError "Error: " detail]))
       | None =>
           (Done (),
            World (set_response (PDict result) (session w))
                  (rendered w ++ [button; EvInvoke GenerateOnClick]))
       end).
Proof.
  intros button. split.
  - intros Hidle. unfold generate_step. run_step.
    destruct (button_clicked E "Generate Proposal"); [|done].
    destruct Hidle as [Hno|Hblank]; [done|]. by rewrite Hblank.
  - intros result Hclick Hinput Hresult. unfold generate_step. run_step.
    rewrite Hclick, Hinput. cbn [negb]. run_step. rewrite Hresult.
    cbn [py_contains_error py_item].
    destruct (result !! "error") as [detail|] eqn:Herr.
    + rewrite bool_decide_eq_true_2 by (by eexists).
      cbn [session rendered]. by rewrite <- !app_assoc.
    + rewrite bool_decide_eq_false_2 by (by intros [? ?]).
      cbn [session rendered]. by rewrite <- !app_assoc.
Qed.

(** A run with nothing to do: without a click on Generate, without a draft
    and with the final response not shown, the run renders the page head,
    the transcript, one line per entry in order, and the button; it calls
    no model and leaves the session as it is. *)
Theorem idle_run_changes_nothing (E : env) (s : session_state) :
  button_clicked E "Generate Proposal" = false →
  truthy (response s) = false →
  show_final_response s = false →
  run E s =
    (Done (),
     World s (page_head ++ chat_markdowns (chat_history s)
              ++ [EvButton "Generate Proposal" "Generate Proposal"])).
Proof.
  intros Hclick Hdraft Hshow.
  unfold run, main, display_chat_history. run_step.
  rewrite display_chats_run. cbn [session rendered].
  unfold generate_step. run_step. rewrite Hclick.
  unfold display_step. run_step. rewrite Hdraft.
  unfold final_step. run_step. rewrite Hshow.
  unfold page_head. by rewrite <- !app_assoc.
Qed.

(** The tax path after a successful analysis: the list of missing details
    is stored, the details the analysis provides are merged into the
    collected ones and win over what was collected before, and only then
    the first unanswered of the missing fields is asked for; with no
    missing details nothing is asked. *)
Theorem analysis_details_override_answers (E : env) (user_input : string)
    (draft : pyval) (w : world) (result provided : gmap string pyval)
    (keys : list string) :
  analyze_details_with_bedrock (bedrock E AnalyzeOnDisplay) user_input draft
    = Ok (PDict result) →
  truthy (default PNone (result !! "error")) = false →
  default (PDict ∅) (result !! "provided_details") = PDict provided →
  default (PList []) (result !! "missing_details") = PList (PStr <$> keys) →
  let merged := provided ∪ collected_details (session w) in
  let w1 :=
    World (set_collected_details merged
             (set_missing_keys (PList (PStr <$> keys)) (session w)))
          (rendered w ++ [EvInvoke AnalyzeOnDisplay]) in
  tax_path E user_input draft w =
    match keys with
    | [] => (Done (), w1)
    | _ :: _ => collect_missing_details_interactive E keys w1
    end ∧
  (∀ key value, provided !! key = Some value → merged !! key = Some value).
Proof.
  intros Hresult Herror Hprovided Hmissing merged w1. split.
  - unfold tax_path. run_step. rewrite Hresult. cbn [py_get].
    change (from_option id ?d ?o) with (default d o).
    rewrite Herror, Hprovided, Hmissing. run_step. cbn [py_update].
    destruct keys as [|key keys]; [done|].
    cbn [truthy fmap list_fmap py_key_list]. rewrite <- fmap_cons.
    by rewrite py_field_names_strings.
  - intros key value Hkey. subst merged. by apply lookup_union_Some_l.
Qed.





End steps.

Lemma tax_run_never_shows_final_witness :
  show_final_response (session (run (sample_env "" false "") review_session).2)
  = false.
Proof.
  exact (tax_run_never_shows_final (sample_env "" false "") review_session
           ltac:(vm_compute; reflexivity)).
Defined.

Lemma idle_run_changes_nothing_witness :
  run (sample_env "" false "") initial_session =
    (Done (),
     World initial_session
       (page_head ++ [] ++ [EvButton "Generate Proposal" "Generate Proposal"])).
Proof.
  exact (idle_run_changes_nothing (sample_env "" false "") initial_session
           eq_refl eq_refl eq_refl).
Defined.

Lemma analysis_details_override_answers_witness :
  collected_details industry_answered !! "Industry" = Some (PStr "Consulting") ∧
  ({[ "Industry" := PStr "Retail" ]} ∪ collected_details industry_answered)
    !! "Industry" = Some (PStr "Retail").
Proof.
  assert (analyze_details_with_bedrock (bedrock analysis_env AnalyzeOnDisplay)
            "Please prepare our tax filing" (PDict payroll_draft)
          = Ok (PDict analysis_result)) as Hresult by (vm_compute; reflexivity).
  split; [vm_compute; reflexivity|].
  refine (proj2 (analysis_details_override_answers analysis_env
                   "Please prepare our tax filing" (PDict payroll_draft)
                   (World industry_answered []) analysis_result
                   {[ "Industry" := PStr "Retail" ]} ["Entity Type"]
                   Hresult _ _ _) "Industry" (PStr "Retail") _);
    vm_compute; reflexivity.
Defined.


(** A body of white space only: the proposal call reports it as "Empty or
    invalid response from the model" without consulting the decoder, while
    the analysis hands it to the decoder and reports the decoder's
    failure. *)
Theorem blank_body_is_treated_differently `{Json} (body user_input : string)
    (model_response : pyval) (e : exn) :
  all_space body = true →
  body ≠ "" →
  json_loads body = Raise e →
  generate_proposal (BedrockBody body) user_input
    = Ok (error_dict "Empty or invalid response from the model") ∧
  analyze_details_with_bedrock (BedrockBody body) user_input model_response
    = Ok (error_dict (analysis_prefix e +:+ exn_msg e)).
Proof.
  intros Hblank Hbody Hloads.
  assert (truthy (PStr body) = true) as Htruthy by (by destruct body).
  unfold analyze_details_with_bedrock, generate_proposal, analyze_details_try,
    generate_proposal_try, analysis_prefix.
  rewrite Htruthy, Hblank, Hloads. cbn [negb orb mbind res_bind].
  split; [done|]. by destruct (exn_cls e).
Qed.

Lemma blank_body_is_treated_differently_witness :
  analyze_details_with_bedrock (BedrockBody " ") "" PNone
  = Ok (error_dict
          "JSON parsing error: Expecting value: line 1 column 2 (char 1)").
Proof.
  assert (json_loads " "
          = Raise (Exn JSONDecodeError
                     "Expecting value: line 1 column 2 (char 1)"))
    as Hloads by (vm_compute; reflexivity).
  exact (proj2 (blank_body_is_treated_differently " " "" PNone _ eq_refl
                  ltac:(discriminate) Hloads)).
Defined.
